(** * mdstat: the parser of /proc/mdstat (mdadm, mdstat.c)

    A shallow embedding of [mdstat.c].  The logical-line reader
    [conf_line] (config.c) is an external collaborator: a logical line
    reaches the parser as a ring of words whose head is the first word,
    modelled here as the head word together with the list of the words
    that follow it.  C strings are [string]s, the [int] fields of
    [struct mdstat_ent] are [Z]s, the singly linked lists ([members],
    the snapshot itself) are [list]s in link order. *)

From Stdlib Require Import ZArith List Bool Lia Arith Permutation.
From Stdlib Require Import Strings.Ascii Strings.String.
Import ListNotations.

Local Open Scope string_scope.
Local Open Scope list_scope.
Local Open Scope Z_scope.

(* ================================================================== *)
(** ** C string primitives *)

Module CStr.

(** [w[i]]; the terminating NUL is read at [i = strlen w]. *)
Definition char_at (w : string) (i : nat) : ascii :=
  match String.get i w with
  | Some c => c
  | None => Ascii.zero
  end.

(** [w + n] for [n <= strlen w]. *)
Fixpoint strdrop (n : nat) (w : string) : string :=
  match n, w with
  | O, _ => w
  | S n', String _ w' => strdrop n' w'
  | S _, EmptyString => EmptyString
  end.

(** The first [n] characters of [w] (all of [w] when it is shorter). *)
Fixpoint strtake (n : nat) (w : string) : string :=
  match n, w with
  | S n', String c w' => String c (strtake n' w')
  | _, _ => EmptyString
  end.

(** [strcmp(a, b) == 0]. *)
Definition strcmp_eq (a b : string) : bool := String.eqb a b.

(** [strncmp(a, b, n) == 0]. *)
Definition strncmp_eq (a b : string) (n : nat) : bool :=
  String.eqb (strtake n a) (strtake n b).

(** [strchr(w, c)]: the offset of the first [c] in [w], if any. *)
Fixpoint strchr (w : string) (c : ascii) : option nat :=
  match w with
  | EmptyString => None
  | String d w' =>
      if Ascii.eqb d c then Some O
      else match strchr w' c with
           | Some k => Some (S k)
           | None => None
           end
  end.

(** [isdigit(c)]. *)
Definition isdigit (c : ascii) : bool :=
  let n := N_of_ascii c in (48 <=? n)%N && (n <=? 57)%N.

(** [isspace(c)] in the C locale. *)
Definition isspace (c : ascii) : bool :=
  let n := N_of_ascii c in (n =? 32)%N || ((9 <=? n)%N && (n <=? 13)%N).

Fixpoint skip_space (w : string) : string :=
  match w with
  | String c w' => if isspace c then skip_space w' else w
  | EmptyString => w
  end.

Fixpoint digits_val (acc : Z) (w : string) : Z :=
  match w with
  | String c w' =>
      if isdigit c
      then digits_val (acc * 10 + (Z.of_N (N_of_ascii c) - 48)) w'
      else acc
  | EmptyString => acc
  end.

Definition LONG_MAX : Z := 2 ^ 63 - 1.
Definition LONG_MIN : Z := - 2 ^ 63.

(** [strtol(w, NULL, 10)], saturating as glibc does. *)
Definition strtol (w : string) : Z :=
  match skip_space w with
  | String "-" w' => Z.max LONG_MIN (- digits_val 0 w')
  | String "+" w' => Z.min LONG_MAX (digits_val 0 w')
  | w' => Z.min LONG_MAX (digits_val 0 w')
  end.

(** Conversion of a [long] to a 32-bit [int]. *)
Definition to_int (z : Z) : Z := (z + 2 ^ 31) mod 2 ^ 32 - 2 ^ 31.

(** [atoi(w)], that is [(int) strtol(w, NULL, 10)]. *)
Definition atoi (w : string) : Z := to_int (strtol w).

End CStr.
Import CStr.

(* ================================================================== *)
(** ** struct mdstat_ent *)

(** mdadm.h is not part of the embedded sources; the sentinels of the
    [percent] field are the values it defines. *)
Definition RESYNC_NONE : Z := -1.
Definition RESYNC_DELAYED : Z := -2.
Definition RESYNC_PENDING : Z := -3.
Definition RESYNC_REMOTE : Z := -4.

Record mdstat_ent : Type := mk_ent {
  devnm : string;
  active : Z;
  level : option string;
  pattern : option string;
  percent : Z;
  resync : Z;
  devcnt : Z;
  raid_disks : Z;
  metadata_version : option string;
  members : list string
}.

Definition set_active (v : Z) (e : mdstat_ent) : mdstat_ent :=
  mk_ent (devnm e) v (level e) (pattern e) (percent e) (resync e)
         (devcnt e) (raid_disks e) (metadata_version e) (members e).

Definition set_level (v : option string) (e : mdstat_ent) : mdstat_ent :=
  mk_ent (devnm e) (active e) v (pattern e) (percent e) (resync e)
         (devcnt e) (raid_disks e) (metadata_version e) (members e).

Definition set_pattern (v : option string) (e : mdstat_ent) : mdstat_ent :=
  mk_ent (devnm e) (active e) (level e) v (percent e) (resync e)
         (devcnt e) (raid_disks e) (metadata_version e) (members e).

Definition set_percent (v : Z) (e : mdstat_ent) : mdstat_ent :=
  mk_ent (devnm e) (active e) (level e) (pattern e) v (resync e)
         (devcnt e) (raid_disks e) (metadata_version e) (members e).

Definition set_resync (v : Z) (e : mdstat_ent) : mdstat_ent :=
  mk_ent (devnm e) (active e) (level e) (pattern e) (percent e) v
         (devcnt e) (raid_disks e) (metadata_version e) (members e).

Definition set_raid_disks (v : Z) (e : mdstat_ent) : mdstat_ent :=
  mk_ent (devnm e) (active e) (level e) (pattern e) (percent e) (resync e)
         (devcnt e) v (metadata_version e) (members e).

Definition set_metadata_version (v : option string) (e : mdstat_ent)
  : mdstat_ent :=
  mk_ent (devnm e) (active e) (level e) (pattern e) (percent e) (resync e)
         (devcnt e) (raid_disks e) v (members e).

(** [add_member_devname(&ent->members, name)]: the new list head and the
    returned count. *)
Definition add_member_devname (m : list string) (name : string)
  : list string * Z :=
  match strchr name "[" with
  | None => (m, 0)
  | Some t => (strtake t name :: m, 1)
  end.

(** [ent->devcnt += add_member_devname(&ent->members, w)]. *)
Definition add_member (w : string) (e : mdstat_ent) : mdstat_ent :=
  let '(m, n) := add_member_devname (members e) w in
  mk_ent (devnm e) (active e) (level e) (pattern e) (percent e) (resync e)
         (devcnt e + n) (raid_disks e) (metadata_version e) m.

(** The record as initialised for the line whose first word is [nm]. *)
Definition new_ent (nm : string) : mdstat_ent :=
  mk_ent nm (-1) None None RESYNC_NONE 0 0 0 None [].

(** [is_mdstat_ent_external]. *)
Definition is_mdstat_ent_external (e : mdstat_ent) : bool :=
  match metadata_version e with
  | None => false
  | Some v => strncmp_eq v "external:" 9
  end.

(* ================================================================== *)
(** ** The word loop of mdstat_read *)

(** A logical line as [conf_line] returns it: [line] itself is the first
    word, [dl_next] walks the words after it and comes back to [line]. *)
Definition conf_line : Type := (string * list string)%type.

(** The locals of one iteration of the line loop.  [insert_here] points
    at a link of the list [all]: slot [0] is [&all], slot [S k] is
    [&all[k]->next]; [None] is the NULL pointer. *)
Record loop_state : Type := mk_state {
  ent : mdstat_ent;
  in_devs : bool;
  insert_here : option nat
}.

Definition with_ent (f : mdstat_ent -> mdstat_ent) (st : loop_state)
  : loop_state :=
  mk_state (f (ent st)) (in_devs st) (insert_here st).

Definition is_null {A : Type} (p : option A) : bool :=
  match p with None => true | Some _ => false end.

Definition slot_eqb (p : option nat) (k : nat) : bool :=
  match p with Some k' => Nat.eqb k k' | None => false end.

(** [(int)strlen(e->devnm) != ep-w || strncmp(e->devnm, w, ep-w) != 0]. *)
Definition name_mismatch (e : mdstat_ent) (w : string) (n : nat) : bool :=
  negb (Nat.eqb (String.length (devnm e)) n)
  || negb (strncmp_eq (devnm e) w n).

(** The walk of [ih] from [&all] along the [next] links, which goes on
    while [ih] differs from [insert_here], points at a record, and that
    record's name is not the member's; here from slot [k], whose target
    is the head of [l]. *)
Fixpoint scan_slot (ih_old : option nat) (w : string) (n : nat)
         (l : list mdstat_ent) (k : nat) : nat :=
  match l with
  | [] => k
  | e :: l' =>
      if slot_eqb ih_old k then k
      else if name_mismatch e w n then scan_slot ih_old w n l' (S k)
      else k
  end.

Definition rule_active (st : loop_state) : loop_state :=
  with_ent (set_active 1) st.

Definition rule_inactive (st : loop_state) : loop_state :=
  mk_state (set_active 0 (ent st)) true (insert_here st).

Definition rule_level (w : string) (st : loop_state) : loop_state :=
  mk_state (set_level (Some w) (ent st)) true (insert_here st).

Definition rule_blocks (st : loop_state) : loop_state :=
  mk_state (ent st) false (insert_here st).

(** The [in_devs] branch: a member word. *)
Definition rule_member (all : list mdstat_ent) (w : string)
           (st : loop_state) : loop_state :=
  let ep := strchr w "[" in
  let e := add_member w (ent st) in
  match ep with
  | Some n =>
      if strncmp_eq w "md" 2
      then mk_state e (in_devs st)
                    (Some (scan_slot (insert_here st) w n all 0))
      else mk_state e (in_devs st) (insert_here st)
  | None => mk_state e (in_devs st) (insert_here st)
  end.

Definition rule_super (nxt : string) (st : loop_state) : loop_state :=
  with_ent (set_metadata_version (Some nxt)) st.

Definition ends_with (w suffix : string) : bool :=
  strcmp_eq (strdrop (String.length w - String.length suffix) w) suffix.

(** The branch taken for a progress word that starts with [r] or [c]. *)
Definition kind_word (w : string) (e : mdstat_ent) : mdstat_ent :=
  let l := String.length w in
  let e := if strncmp_eq w "resync" 6 then set_resync 1 e else e in
  let e := if strncmp_eq w "reshape" 7 then set_resync 2 e else e in
  let e := if strncmp_eq w "recovery" 8 then set_resync 0 e else e in
  let e := if strncmp_eq w "check" 5 then set_resync 3 e else e in
  let e := if (8 <? l)%nat && ends_with w "=DELAYED"
           then set_percent RESYNC_DELAYED e else e in
  let e := if (8 <? l)%nat && ends_with w "=PENDING"
           then set_percent RESYNC_PENDING e else e in
  let e := if (7 <? l)%nat && ends_with w "=REMOTE"
           then set_percent RESYNC_REMOTE e else e in
  e.

(** The branch taken for [re...=N%]. *)
Definition percent_word (w : string) (eq : nat) (e : mdstat_ent)
  : mdstat_ent :=
  let e := set_percent (atoi (strdrop (S eq) w)) e in
  if strncmp_eq w "resync" 6 then set_resync 1 e
  else if strncmp_eq w "reshape" 7 then set_resync 2 e
  else set_resync 0 e.

(** The stored pattern: [w+1] with a final [']'] cut off. *)
Definition pattern_of (w : string) : string :=
  let p := strdrop 1 w in
  let l := String.length w in
  if Ascii.eqb (char_at p (l - 2)) "]" then strtake (l - 2) p else p.

(** The tail of the if-chain, from the [[N/M]] test on: the words that
    are neither keywords nor members. *)
Definition status_word (w : string) (e : mdstat_ent) : mdstat_ent :=
  let l := String.length w in
  if Ascii.eqb (char_at w 0) "[" && isdigit (char_at w 1)
  then set_raid_disks (atoi (strdrop 1 w)) e
  else if is_null (pattern e)
          && Ascii.eqb (char_at w 0) "["
          && (Ascii.eqb (char_at w 1) "U" || Ascii.eqb (char_at w 1) "_")
  then set_pattern (Some (pattern_of w)) e
  else
    match
      (if (percent e =? RESYNC_NONE)
          && strncmp_eq w "re" 2
          && Ascii.eqb (char_at w (l - 1)) "%"
       then strchr w "=" else None)
    with
    | Some eq => percent_word w eq e
    | None =>
        if (percent e =? RESYNC_NONE)
           && (Ascii.eqb (char_at w 0) "r" || Ascii.eqb (char_at w 0) "c")
        then kind_word w e
        else if (percent e =? RESYNC_NONE)
                && isdigit (char_at w 0)
                && Ascii.eqb (char_at w (l - 1)) "%"
        then set_percent (atoi w) e
        else e
    end.

Definition rule_status (w : string) (st : loop_state) : loop_state :=
  with_ent (status_word w) st.

(** [for (w = dl_next(line); w != line; w = dl_next(w)) ...] over the
    words [ws] that remain on the ring. *)
Fixpoint words_loop (all : list mdstat_ent) (st : loop_state)
         (ws : list string) {struct ws} : loop_state :=
  match ws with
  | [] => st
  | w :: ws' =>
      if strcmp_eq w "active" then words_loop all (rule_active st) ws'
      else if strcmp_eq w "inactive"
      then words_loop all (rule_inactive st) ws'
      else if strcmp_eq w "bitmap:" then st
      else if (0 <? active (ent st))
              && is_null (level (ent st))
              && negb (Ascii.eqb (char_at w 0) "(")
      then words_loop all (rule_level w st) ws'
      else if in_devs st && strcmp_eq w "blocks"
      then words_loop all (rule_blocks st) ws'
      else if in_devs st then words_loop all (rule_member all w st) ws'
      else if strcmp_eq w "super" then
        match ws' with
        | nxt :: ws'' => words_loop all (rule_super nxt st) ws''
        | [] => words_loop all (rule_status w st) ws'
        end
      else words_loop all (rule_status w st) ws'
  end.

(** The test that lets a line through: not a header, and a plausible
    array name. *)
Definition is_header (line : string) : bool :=
  strcmp_eq line "Personalities"
  || strcmp_eq line "read_ahead"
  || strcmp_eq line "unused".

Definition md_name_ok (line : string) : bool :=
  negb (negb (strncmp_eq line "md" 2)
        || (32 <=? String.length line)%nat
        || (negb (Ascii.eqb (char_at line 2) "_")
            && negb (isdigit (char_at line 2)))).

Definition init_state (line : string) : loop_state :=
  mk_state (new_ent line) false None.

(** The record and the insertion slot the word loop computes for one
    accepted line. *)
Definition parse_line (all : list mdstat_ent) (l : conf_line) : loop_state :=
  words_loop all (init_state (fst l)) (snd l).

(** The slot where the record goes: [insert_here] when it is set and
    points at a record, the [end] link otherwise. *)
Definition target_slot (all : list mdstat_ent) (ih : option nat) : nat :=
  match ih with
  | Some k => if (k <? List.length all)%nat then k else List.length all
  | None => List.length all
  end.

(** Linking [e] in at slot [k]. *)
Definition link_at (k : nat) (e : mdstat_ent) (all : list mdstat_ent)
  : list mdstat_ent :=
  firstn k all ++ e :: skipn k all.

(** One iteration of the line loop. *)
Definition line_step (all : list mdstat_ent) (l : conf_line)
  : list mdstat_ent :=
  if is_header (fst l) then all
  else if md_name_ok (fst l) then
    let st := parse_line all l in
    link_at (target_slot all (insert_here st)) (ent st) all
  else all.

(** The whole line loop, [all] being the list built so far. *)
Definition read_lines (all : list mdstat_ent) (ls : list conf_line)
  : list mdstat_ent :=
  fold_left line_step ls all.

(** The final [while (all)] loop that reverses the list into [rv]. *)
Fixpoint reverse_onto (all rv : list mdstat_ent) : list mdstat_ent :=
  match all with
  | [] => rv
  | e :: all' => reverse_onto all' (e :: rv)
  end.

(* ================================================================== *)
(** ** mdstat_read, mdstat_close, mdstat_wait *)

(** What the C library and the kernel answer during one call of
    [mdstat_read]; each field is the result of the call named. *)
Record io_env : Type := mk_env {
  lseek_ret : Z;               (* lseek(mdstat_fd, 0L, 0) *)
  dup_ret : Z;                 (* dup(mdstat_fd) *)
  fdopen_ok : bool;            (* fdopen(fd, "r") != NULL *)
  fopen_ok : bool;             (* fopen("/proc/mdstat", "r") != NULL *)
  fcntl_ret : Z;               (* fcntl(fileno(f), F_SETFD, FD_CLOEXEC) *)
  content : list conf_line;    (* the lines conf_line(f) yields *)
  dup_fileno_ret : Z;          (* dup(fileno(f)) *)
  fcntl_hold_ret : Z           (* fcntl(mdstat_fd, F_SETFD, FD_CLOEXEC) *)
}.

(** [mdstat_read(hold, start)] run with the static [mdstat_fd]: the list
    returned (NULL is the empty list) and the new value of [mdstat_fd]. *)
Definition mdstat_read (hold start : bool) (mdstat_fd : Z) (env : io_env)
  : list mdstat_ent * Z :=
  let opened :=
    if hold && negb (mdstat_fd =? -1) then
      if lseek_ret env =? -1 then None
      else if 0 <=? dup_ret env then Some (fdopen_ok env)
      else None
    else Some (fopen_ok env) in
  match opened with
  | None | Some false => ([], mdstat_fd)
  | Some true =>
      if fcntl_ret env <? 0 then ([], mdstat_fd)
      else
        let all := read_lines [] (content env) in
        let rv := if start then reverse_onto all [] else all in
        if hold && (mdstat_fd =? -1) then
          if fcntl_hold_ret env <? 0 then ([], dup_fileno_ret env)
          else (rv, dup_fileno_ret env)
        else (rv, mdstat_fd)
  end.

(** The snapshot of a read in which every system call succeeds. *)
Definition snapshot (start : bool) (ls : list conf_line) : list mdstat_ent :=
  let all := read_lines [] ls in
  if start then reverse_onto all [] else all.

(** [mdstat_close]: the new value of [mdstat_fd]. *)
Definition mdstat_close (mdstat_fd : Z) : Z := -1.

(** A system call made by [mdstat_wait]:
    [select(nfds, NULL, NULL, {fd}, {seconds, 0})]. *)
Inductive syscall : Type :=
| Select (nfds : Z) (exceptfd : Z) (seconds : Z).

(** How select(2) ends: descriptors reported ready, the timeout expired,
    or an error. *)
Inductive select_outcome : Type :=
| Ready (n : positive)
| TimedOut
| Failed.

(** The value select(2) returns. *)
Definition select_ret (o : select_outcome) : Z :=
  match o with
  | Ready n => Z.pos n
  | TimedOut => 0
  | Failed => -1
  end.

(** [mdstat_wait(seconds)]: the value returned and the system calls made,
    [o] being the outcome of the call of select if it is made. *)
Definition mdstat_wait (mdstat_fd : Z) (seconds : Z) (o : select_outcome)
  : Z * list syscall :=
  if 0 <=? mdstat_fd
  then (select_ret o, [Select (mdstat_fd + 1) mdstat_fd seconds])
  else (-1, []).

(* ================================================================== *)
(** ** The query layer and mdstat_wait_fd *)

(** [ent->metadata_version + 9], read only when the version is there. *)
Definition version_tail (e : mdstat_ent) : string :=
  match metadata_version e with
  | Some v => strdrop 9 v
  | None => EmptyString
  end.

(** [is_mdstat_ent_subarray]; [is_subarray] (util.c) is not part of the
    embedded sources and is taken as a parameter. *)
Definition is_mdstat_ent_subarray (is_subarray : string -> bool)
           (e : mdstat_ent) : bool :=
  is_mdstat_ent_external e && is_subarray (version_tail e).

(** [is_container_member]; [metadata_container_matches] (util.c) is a
    parameter as well. *)
Definition is_container_member
           (metadata_container_matches : string -> string -> bool)
           (e : mdstat_ent) (container : string) : bool :=
  is_mdstat_ent_external e
  && metadata_container_matches (version_tail e) container.

(** The inner loop of [mdstat_find_by_member_name] over [ent->members]. *)
Fixpoint member_listed (m : list string) (name : string) : bool :=
  match m with
  | [] => false
  | n :: m' => if strcmp_eq n name then true else member_listed m' name
  end.

(** [mdstat_find_by_member_name]: the record returned is given by its
    position in the list [mdstat]; [None] is NULL. *)
Fixpoint mdstat_find_by_member_name (is_subarray : string -> bool)
         (mdstat : list mdstat_ent) (member_devnm : string) : option nat :=
  match mdstat with
  | [] => None
  | e :: rest =>
      if is_mdstat_ent_subarray is_subarray e
      then option_map S
             (mdstat_find_by_member_name is_subarray rest member_devnm)
      else if member_listed (members e) member_devnm then Some O
      else option_map S
             (mdstat_find_by_member_name is_subarray rest member_devnm)
  end.

(** The walk of [mdstat_ent_list_detach_element] once the head is known
    not to be [el]: [l] starts at [ent], which sits at position [k]. *)
Fixpoint detach_walk (l : list mdstat_ent) (k el : nat)
  : option (list mdstat_ent) :=
  match l with
  | [] => None
  | e :: l' =>
      match l' with
      | _ :: l'' =>
          if Nat.eqb (S k) el then Some (e :: l'')
          else option_map (cons e) (detach_walk l' (S k) el)
      | [] => None
      end
  end.

(** [mdstat_ent_list_detach_element(&list_head, el)], [el] being given
    by the position of the record it points at (a position past the end
    stands for a pointer to a record that is not in the list): the list
    that is left and the record taken out, or [None] when the assertion
    fails. *)
Definition mdstat_ent_list_detach_element (list_head : list mdstat_ent)
           (el : nat) : option (list mdstat_ent * mdstat_ent) :=
  match list_head with
  | [] => None
  | e :: rest =>
      if Nat.eqb O el then Some (rest, e)
      else match detach_walk list_head O el, nth_error list_head el with
           | Some l', Some x => Some (l', x)
           | _, _ => None
           end
  end.

(** The loop of [mddev_busy]: the position of the first record named
    [name]. *)
Fixpoint find_devnm (l : list mdstat_ent) (name : string) : option nat :=
  match l with
  | [] => None
  | me :: rest =>
      if strcmp_eq (devnm me) name then Some O
      else option_map S (find_devnm rest name)
  end.

(** [mddev_busy(devnm)], the read being the one [env] describes. *)
Definition mddev_busy (mdstat_fd : Z) (env : io_env) (name : string) : bool :=
  negb (is_null (find_devnm (fst (mdstat_read false false mdstat_fd env))
                            name)).

(** How a query that detaches a record ends. *)
Inductive query_result : Type :=
| Aborted                    (* the assertion of the detach failed *)
| Found (e : mdstat_ent)     (* the record, detached *)
| NotFound.                  (* NULL *)

(** [mdstat_by_component(name)]. *)
Definition mdstat_by_component (is_subarray : string -> bool)
           (mdstat_fd : Z) (env : io_env) (name : string) : query_result :=
  let mdstat := fst (mdstat_read false false mdstat_fd env) in
  match mdstat_find_by_member_name is_subarray mdstat name with
  | Some k =>
      match mdstat_ent_list_detach_element mdstat k with
      | Some (_, e) => Found e
      | None => Aborted
      end
  | None => NotFound
  end.

(** The loop of [mdstat_by_subdev]. *)
Fixpoint find_subdev (container_matches subdev_matches
                      : string -> string -> bool)
         (l : list mdstat_ent) (subdev container : string) : option nat :=
  match l with
  | [] => None
  | e :: rest =>
      if negb (is_mdstat_ent_external e)
      then option_map S (find_subdev container_matches subdev_matches
                                     rest subdev container)
      else if negb (container_matches (version_tail e) container)
      then option_map S (find_subdev container_matches subdev_matches
                                     rest subdev container)
      else if negb (subdev_matches (version_tail e) subdev)
      then option_map S (find_subdev container_matches subdev_matches
                                     rest subdev container)
      else Some O
  end.

(** [mdstat_by_subdev(subdev, container)]. *)
Definition mdstat_by_subdev (container_matches subdev_matches
                             : string -> string -> bool)
           (mdstat_fd : Z) (env : io_env) (subdev container : string)
  : query_result :=
  let mdstat := fst (mdstat_read false false mdstat_fd env) in
  match find_subdev container_matches subdev_matches mdstat subdev container
  with
  | Some k =>
      match mdstat_ent_list_detach_element mdstat k with
      | Some (_, e) => Found e
      | None => Aborted
      end
  | None => NotFound
  end.

(** What [fstat(fd, &stb)] answers in [mdstat_wait_fd]. *)
Inductive fstat_result : Type :=
| FstatFailed
| FstatRegular               (* (stb.st_mode & S_IFMT) == S_IFREG *)
| FstatOther.

(** The call [pselect(nfds, &rfds, NULL, &fds, NULL, sigmask)]. *)
Record pselect_call : Type := mk_pselect {
  ps_nfds : Z;
  ps_readfds : list Z;
  ps_exceptfds : list Z
}.

(** [mdstat_wait_fd(fd, sigmask)]: the call of pselect it makes, if it
    makes one. *)
Definition mdstat_wait_fd (mdstat_fd fd : Z) (st : fstat_result)
  : option pselect_call :=
  let fds := if 0 <=? mdstat_fd then [mdstat_fd] else [] in
  let finish (maxfd : Z) (rfds fds : list Z) :=
    let maxfd := if maxfd <? mdstat_fd then mdstat_fd else maxfd in
    Some (mk_pselect (maxfd + 1) rfds fds) in
  if 0 <=? fd then
    match st with
    | FstatFailed => None
    | FstatRegular => finish (if 0 <? fd then fd else 0) [] (fd :: fds)
    | FstatOther => finish (if 0 <? fd then fd else 0) [fd] fds
    end
  else finish 0 [] fds.

(* ================================================================== *)
(** ** Vocabulary of the properties *)

(** The environment of a read in which every call succeeds. *)
Definition ok_env (ls : list conf_line) : io_env :=
  mk_env 0 4 true true 0 ls 5 0.

(** [env] with other lines in the file. *)
Definition set_content (ls : list conf_line) (env : io_env) : io_env :=
  mk_env (lseek_ret env) (dup_ret env) (fdopen_ok env) (fopen_ok env)
         (fcntl_ret env) ls (dup_fileno_ret env) (fcntl_hold_ret env).

Definition decimal_digit (c : ascii) : Prop :=
  In c ["0"; "1"; "2"; "3"; "4"; "5"; "6"; "7"; "8"; "9"]%char.

(** The shape of an array name: [md], then a digit or [_], fewer than 32
    characters in all. *)
Definition array_name (nm : string) : Prop :=
  String.prefix "md" nm = true /\
  (String.length nm < 32)%nat /\
  exists c, String.get 2 nm = Some c /\ (decimal_digit c \/ c = "_"%char).

(** [r] is a member-array of [c]: the name of [r] is among the members
    of [c]. *)
Definition member_array_of (r c : mdstat_ent) : Prop :=
  In (devnm r) (members c).

(** No record of the list is a member-array of a later record. *)
Definition composites_first (l : list mdstat_ent) : Prop :=
  forall i j ri rj,
    (i < j)%nat -> nth_error l i = Some ri -> nth_error l j = Some rj ->
    ~ member_array_of ri rj.

(** No record of the list is a member-array of an earlier record. *)
Definition components_first (l : list mdstat_ent) : Prop :=
  forall i j ri rj,
    (i < j)%nat -> nth_error l i = Some ri -> nth_error l j = Some rj ->
    ~ member_array_of rj ri.

(** [composites_first] by recursion on the list. *)
Fixpoint composites_first_rec (l : list mdstat_ent) : Prop :=
  match l with
  | [] => True
  | x :: l' =>
      Forall (fun y => ~ member_array_of x y) l' /\ composites_first_rec l'
  end.

(** While the word loop runs, no record in front of the slot the new
    record is bound for bears the name of a member collected so far. *)
Definition ahead_of_members (all : list mdstat_ent) (st : loop_state)
  : Prop :=
  forall x, In x (firstn (target_slot all (insert_here st)) all) ->
            ~ In (devnm x) (members (ent st)).

(** The members the word loop collects from a line; they do not depend
    on the list built so far. *)
Definition line_members (l : conf_line) : list string :=
  members (ent (parse_line [] l)).

(** The lines of the file that yield a record. *)
Definition accepted (l : conf_line) : bool :=
  negb (is_header (fst l)) && md_name_ok (fst l).

(** A line above [l], among the lines [pre], names the array of [l] as a
    member. *)
Definition named_above (pre : list conf_line) (l : conf_line) : Prop :=
  exists l', In l' pre /\ accepted l' = true /\
             In (fst l) (line_members l').

(** [l] names as a member the array of a line above it, among the lines
    [pre]. *)
Definition names_above (pre : list conf_line) (l : conf_line) : Prop :=
  exists l', In l' pre /\ accepted l' = true /\
             In (fst l') (line_members l).

(** No accepted line of the file comes after both a line that names its
    array as a member and the line of an array it names as a member. *)
Definition no_line_in_between (ls : list conf_line) : Prop :=
  forall pre l post,
    ls = pre ++ l :: post -> accepted l = true ->
    ~ (named_above pre l /\ names_above pre l).

(** In the file, no array is named as a member on a line below its own:
    the line of a composite comes before the lines of its components. *)
Fixpoint composites_listed_first (ls : list conf_line) : Prop :=
  match ls with
  | [] => True
  | l :: ls' =>
      (accepted l = true ->
       Forall (fun l' => accepted l' = true ->
                         ~ In (fst l) (line_members l')) ls')
      /\ composites_listed_first ls'
  end.

(** The records of the accepted lines of a file, each parsed on its
    own, in the order of the file. *)
Definition records_of (ls : list conf_line) : list mdstat_ent :=
  map (fun l => ent (parse_line [] l)) (filter accepted ls).

(** The words of a line that reach the member branch of the if-chain,
    found by following the three tests that guard it: [act] is
    [ent->active > 0], [lvl] is [ent->level != NULL], [devs] is
    [in_devs]. *)
Fixpoint member_words (act lvl devs : bool) (ws : list string)
  : list string :=
  match ws with
  | [] => []
  | w :: ws' =>
      if strcmp_eq w "active" then member_words true lvl devs ws'
      else if strcmp_eq w "inactive" then member_words false lvl true ws'
      else if strcmp_eq w "bitmap:" then []
      else if act && negb lvl && negb (Ascii.eqb (char_at w 0) "(")
      then member_words act true true ws'
      else if devs && strcmp_eq w "blocks"
      then member_words act lvl false ws'
      else if devs then w :: member_words act lvl devs ws'
      else if strcmp_eq w "super" then
        match ws' with
        | _ :: ws'' => member_words act lvl devs ws''
        | [] => []
        end
      else member_words act lvl devs ws'
  end.

Definition has_bracket (w : string) : bool :=
  negb (is_null (strchr w "[")).

(** The name stored for a member word: the text before its first [[]. *)
Definition member_name (w : string) : string :=
  match strchr w "[" with
  | Some t => strtake t w
  | None => w
  end.

(** The lines of the scenarios. *)
Module Scenario.

Definition S1 : conf_line :=
  ("md0", [":"; "active"; "raid5"; "sdc1[2]"; "sdb1[1]"; "sda1[0]";
           "1048576"; "blocks"; "level"; "5,"; "64k"; "chunk,";
           "algorithm"; "2"; "[3/3]"; "[UUU]"]).

Definition S2 : conf_line :=
  ("md1", [":"; "active"; "raid1"; "sdd1[1]"; "sde1[0](F)"; "1048576";
           "blocks"; "[2/1]"; "[U_]"; "resync"; "="; "37.4%";
           "(390000/1048576)"; "finish=2.1min"; "speed=80000K/sec"]).

Definition S3 : conf_line :=
  ("md2", [":"; "inactive"; "sdf1[0](S)"; "1048576"; "blocks"]).

Definition S4 : conf_line :=
  ("md3", [":"; "active"; "raid0"; "md1[1]"; "md0[0]"; "2097152";
           "blocks"; "64k"; "chunks"]).

Definition S5 : conf_line :=
  ("md4", [":"; "active"; "raid5"; "sda1[0]"; "1048576"; "blocks";
           "[3/1]"; "[U__]"; "recovery=DELAYED"]).

(** S6 up to its [bitmap:] word. *)
Definition S6_head : list string :=
  [":"; "active"; "raid1"; "sdg1[0]"; "1048576"; "blocks"; "super";
   "external:/container0/vol1"; "[1/1]"; "[U]"].

Definition S6 : conf_line :=
  ("md5", S6_head ++ ["bitmap:"; "1/1"; "pages"; "[4KB]"]).

(** A status word that opens like a pattern and goes on otherwise. *)
Definition odd_pattern : conf_line :=
  ("md0", [":"; "active"; "raid1"; "sdb1[1]"; "sda1[0]"; "1048576";
           "blocks"; "[2/2]"; "[U1]"]).

(** A percentage with no operation named before it. *)
Definition bare_percent : conf_line :=
  ("md0", [":"; "active"; "raid1"; "sda1[0]"; "1048576"; "blocks";
           "[1/1]"; "[U]"; "50%"]).

(** A recovery under way, as the kernel prints it. *)
Definition recovering : conf_line :=
  ("md0", [":"; "active"; "raid1"; "sdb1[1]"; "sda1[0]"; "1048576";
           "blocks"; "[2/1]"; "[U_]"; "recovery"; "="; "12.6%";
           "(132096/1048576)"; "finish=1.2min"; "speed=12008K/sec"]).

(** Three levels, the middle one listed last. *)
Definition stacked : list conf_line :=
  [ ("md0", [":"; "active"; "raid1"; "sdb1[1]"; "sda1[0]"; "blocks"]);
    ("md2", [":"; "active"; "raid0"; "md1[0]"; "sdc1[1]"; "blocks"]);
    ("md1", [":"; "active"; "raid1"; "md0[0]"; "sdd1[1]"; "blocks"]) ].

End Scenario.

(* ================================================================== *)
(** ** Reasoning principles for the loops *)

Ltac break_match :=
  repeat match goal with
         | |- context [if ?b then _ else _] => destruct b
         | |- context [match ?x with Some _ => _ | None => _ end] =>
             destruct x
         end.

(** An invariant of [loop_state] kept by every branch of the if-chain,
    taken at the words of the line, is kept by the whole word loop. *)
Lemma words_loop_invariant_in (P : loop_state -> Prop)
      (all : list mdstat_ent) (ws0 : list string) :
  (forall st, P st -> P (rule_active st)) ->
  (forall st, P st -> P (rule_inactive st)) ->
  (forall w st, In w ws0 -> P st -> P (rule_level w st)) ->
  (forall st, P st -> P (rule_blocks st)) ->
  (forall w st, In w ws0 -> P st -> P (rule_member all w st)) ->
  (forall w st, In w ws0 -> P st -> P (rule_super w st)) ->
  (forall w st, In w ws0 -> P st -> P (rule_status w st)) ->
  forall ws st, incl ws ws0 -> P st -> P (words_loop all st ws).
Proof.
  intros Ha Hi Hl Hb Hm Hs Ht ws.
  assert (H : forall n ws st, (List.length ws <= n)%nat -> incl ws ws0 ->
                              P st -> P (words_loop all st ws)).
  { induction n as [|n IH]; intros [|w ws'] st Hlen Hin Hst; simpl in *;
      try assumption; try lia.
    assert (Hlen' : (List.length ws' <= n)%nat) by lia.
    assert (Hw : In w ws0) by (apply Hin; left; reflexivity).
    assert (Hin' : incl ws' ws0) by (intros x Hx; apply Hin; right; exact Hx).
    destruct (strcmp_eq w "active"); [apply IH; auto|].
    destruct (strcmp_eq w "inactive"); [apply IH; auto|].
    destruct (strcmp_eq w "bitmap:"); [assumption|].
    destruct ((0 <? active (ent st)) && is_null (level (ent st))
              && negb (Ascii.eqb (char_at w 0) "(")); [apply IH; auto|].
    destruct (in_devs st && strcmp_eq w "blocks"); [apply IH; auto|].
    destruct (in_devs st); [apply IH; auto|].
    destruct (strcmp_eq w "super"); [|apply IH; auto].
    destruct ws' as [|nxt ws'']; [apply IH; auto|].
    apply IH.
    - simpl in Hlen'; lia.
    - intros x Hx. apply Hin'. right. exact Hx.
    - apply Hs; [apply Hin'; left; reflexivity | exact Hst]. }
  intros st Hin Hst. apply (H (List.length ws)); auto.
Qed.

Lemma words_loop_invariant (P : loop_state -> Prop) (all : list mdstat_ent) :
  (forall st, P st -> P (rule_active st)) ->
  (forall st, P st -> P (rule_inactive st)) ->
  (forall w st, P st -> P (rule_level w st)) ->
  (forall st, P st -> P (rule_blocks st)) ->
  (forall w st, P st -> P (rule_member all w st)) ->
  (forall w st, P st -> P (rule_super w st)) ->
  (forall w st, P st -> P (rule_status w st)) ->
  forall ws st, P st -> P (words_loop all st ws).
Proof.
  intros Ha Hi Hl Hb Hm Hs Ht ws st Hst.
  apply (words_loop_invariant_in P all ws); auto using incl_refl.
Qed.

(** The same for a property of the record alone. *)
Lemma words_loop_ent_invariant (Q : mdstat_ent -> Prop)
      (all : list mdstat_ent) :
  (forall v e, Q e -> Q (set_active v e)) ->
  (forall w e, Q e -> Q (set_level (Some w) e)) ->
  (forall w e, Q e -> Q (add_member w e)) ->
  (forall w e, Q e -> Q (set_metadata_version (Some w) e)) ->
  (forall w e, Q e -> Q (status_word w e)) ->
  forall ws st, Q (ent st) -> Q (ent (words_loop all st ws)).
Proof.
  intros Ha Hl Hm Hs Ht ws st.
  apply (words_loop_invariant (fun st => Q (ent st))); simpl; auto.
  intros w st' Hq. unfold rule_member.
  destruct (strchr w "["); [destruct (strncmp_eq w "md" 2)|]; simpl; auto.
Qed.

Lemma reverse_onto_spec (all rv : list mdstat_ent) :
  reverse_onto all rv = rev all ++ rv.
Proof.
  revert rv. induction all as [|e all IH]; intros rv; simpl; auto.
  rewrite IH, <- app_assoc. reflexivity.
Qed.

Lemma In_link_at (k : nat) (e r : mdstat_ent) (all : list mdstat_ent) :
  In r (link_at k e all) <-> r = e \/ In r all.
Proof.
  unfold link_at. rewrite <- (firstn_skipn k all) at 3.
  rewrite !in_app_iff. simpl. intuition congruence.
Qed.

Lemma read_lines_cons (all : list mdstat_ent) (l : conf_line)
      (ls : list conf_line) :
  read_lines all (l :: ls) = read_lines (line_step all l) ls.
Proof. reflexivity. Qed.

Lemma read_lines_app (all : list mdstat_ent) (ls1 ls2 : list conf_line) :
  read_lines all (ls1 ++ ls2) = read_lines (read_lines all ls1) ls2.
Proof. unfold read_lines. apply fold_left_app. Qed.

(** Every record of the list the line loop builds was in the list before
    or is the record parsed from an accepted line. *)
Lemma read_lines_In (r : mdstat_ent) (ls : list conf_line) :
  forall all,
    In r (read_lines all ls) ->
    In r all \/
    exists all' l, In l ls /\ is_header (fst l) = false /\
                   md_name_ok (fst l) = true /\
                   r = ent (parse_line all' l).
Proof.
  induction ls as [|l ls IH]; intros all Hin; simpl in *; auto.
  apply IH in Hin. destruct Hin as [Hin | (all' & l' & H1 & H2 & H3 & H4)].
  - unfold line_step in Hin.
    destruct (is_header (fst l)) eqn:Hh; auto.
    destruct (md_name_ok (fst l)) eqn:Hn; auto.
    apply In_link_at in Hin. destruct Hin as [-> | Hin]; auto.
    right. exists all, l. auto.
  - right. exists all', l'. auto.
Qed.

(** The list [mdstat_read] returns holds only records of the line loop. *)
Lemma mdstat_read_In (hold start : bool) (fd : Z) (env : io_env)
      (r : mdstat_ent) :
  In r (fst (mdstat_read hold start fd env)) ->
  In r (read_lines [] (content env)).
Proof.
  unfold mdstat_read.
  assert (Hrv : In r (if start
                      then reverse_onto (read_lines [] (content env)) []
                      else read_lines [] (content env)) ->
                In r (read_lines [] (content env))).
  { destruct start; auto. rewrite reverse_onto_spec, app_nil_r.
    intros H. apply in_rev. exact H. }
  repeat match goal with
         | |- context [if ?b then _ else _] => destruct b; simpl; auto
         | |- context [match ?x with Some _ => _ | None => _ end] =>
             destruct x; simpl; auto
         end; try tauto.
Qed.

(** A relation between a line and the record the word loop makes of
    it holds between every record [mdstat_read] returns and some line of
    the file. *)
Lemma mdstat_read_records_line (Q : conf_line -> mdstat_ent -> Prop) :
  (forall all l, is_header (fst l) = false -> md_name_ok (fst l) = true ->
                 Q l (ent (parse_line all l))) ->
  forall hold start fd env r,
    In r (fst (mdstat_read hold start fd env)) ->
    exists l, In l (content env) /\ Q l r.
Proof.
  intros HQ hold start fd env r Hin.
  apply mdstat_read_In, read_lines_In in Hin.
  destruct Hin as [[] | (all' & l & H1 & H2 & H3 & ->)].
  exists l. auto.
Qed.

Lemma mdstat_read_records (Q : mdstat_ent -> Prop) :
  (forall all l, is_header (fst l) = false -> md_name_ok (fst l) = true ->
                 Q (ent (parse_line all l))) ->
  forall hold start fd env r,
    In r (fst (mdstat_read hold start fd env)) -> Q r.
Proof.
  intros HQ hold start fd env r Hin.
  destruct (mdstat_read_records_line (fun _ => Q) HQ _ _ _ _ _ Hin)
    as (l & _ & H).
  exact H.
Qed.

(** The final loop turns the list round, and a failed read returns the
    empty list either way. *)
Lemma mdstat_read_rev (hold : bool) (fd : Z) (env : io_env) :
  fst (mdstat_read hold true fd env)
  = rev (fst (mdstat_read hold false fd env)).
Proof.
  unfold mdstat_read.
  repeat match goal with
         | |- context [if ?b then _ else _] => destruct b; simpl; auto
         | |- context [match ?x with Some _ => _ | None => _ end] =>
             destruct x; simpl; auto
         end;
    rewrite reverse_onto_spec, app_nil_r; reflexivity.
Qed.

Lemma mdstat_read_ok (hold start : bool) (ls : list conf_line) :
  fst (mdstat_read hold start (-1) (ok_env ls)) = snapshot start ls.
Proof. destruct hold, start; reflexivity. Qed.

(* ================================================================== *)
(** ** The records of a snapshot *)

Lemma devnm_words_loop (all : list mdstat_ent) (ws : list string)
      (st : loop_state) :
  devnm (ent (words_loop all st ws)) = devnm (ent st).
Proof.
  apply (words_loop_ent_invariant (fun e => devnm e = devnm (ent st)));
    intros; simpl; auto.
  - unfold add_member, add_member_devname.
    destruct (strchr w "["); simpl; auto.
  - unfold status_word, percent_word, kind_word, pattern_of.
    break_match; simpl; auto.
Qed.

Lemma devnm_parse_line (all : list mdstat_ent) (l : conf_line) :
  devnm (ent (parse_line all l)) = fst l.
Proof. unfold parse_line. rewrite devnm_words_loop. reflexivity. Qed.

Lemma isdigit_decimal (c : ascii) : isdigit c = true -> decimal_digit c.
Proof.
  destruct c as [[] [] [] [] [] [] [] []]; vm_compute; intros H;
    try discriminate H; tauto.
Qed.

Lemma strtake_prefix (p w : string) :
  String.eqb (strtake (String.length p) w) p = String.prefix p w.
Proof.
  revert w. induction p as [|c p IH]; intros [|d w]; simpl; auto.
  rewrite <- IH. destruct (Ascii.eqb_spec d c) as [->|Hne].
  - destruct (ascii_dec c c); [reflexivity | congruence].
  - destruct (ascii_dec c d); [congruence | reflexivity].
Qed.

(** The test of the source says what [array_name] says. *)
Lemma md_name_ok_array_name (nm : string) :
  md_name_ok nm = true -> array_name nm.
Proof.
  unfold md_name_ok, array_name, strncmp_eq. intros H.
  apply negb_true_iff in H.
  apply orb_false_iff in H. destruct H as [H H3].
  apply orb_false_iff in H. destruct H as [H1 H2].
  apply negb_false_iff in H1.
  change (strtake 2 "md") with "md" in H1.
  change 2%nat with (String.length "md") in H1 at 1.
  rewrite strtake_prefix in H1.
  apply Nat.leb_gt in H2.
  repeat split; auto.
  unfold char_at in H3.
  destruct (String.get 2 nm) as [c|] eqn:Hc.
  - exists c. split; auto.
    destruct (Ascii.eqb_spec c "_"); auto.
    destruct (isdigit c) eqn:Hd; [left; apply isdigit_decimal; auto|].
    discriminate H3.
  - discriminate H3.
Qed.

Lemma array_name_md_name_ok (nm : string) :
  array_name nm -> md_name_ok nm = true.
Proof.
  unfold md_name_ok, array_name, strncmp_eq.
  intros (H1 & H2 & c & Hc & Hd).
  change (strtake 2 "md") with "md".
  change 2%nat with (String.length "md") at 1.
  rewrite strtake_prefix, H1.
  apply Nat.leb_gt in H2. rewrite H2.
  unfold char_at. rewrite Hc. cbn [negb orb].
  destruct Hd as [Hd | ->]; [|reflexivity].
  unfold decimal_digit in Hd. simpl in Hd.
  repeat (destruct Hd as [<- | Hd]; [reflexivity|]). destruct Hd.
Qed.

Lemma line_step_skip (all : list mdstat_ent) (l : conf_line) :
  accepted l = false -> line_step all l = all.
Proof.
  unfold accepted, line_step. intros H.
  destruct (is_header (fst l)); auto.
  simpl in H. rewrite H. reflexivity.
Qed.

(** C6.  Every record of a snapshot returned by [mdstat_read] has a name
    that begins with [md], is shorter than 32 characters and has a
    decimal digit or [_] as its third character; and a line of the file
    whose first word fails this test leaves no trace: the read returns
    what it returns for the file without that line. *)
Theorem mdstat_read_devnm (hold start : bool) (fd : Z) (env : io_env) :
  (forall r, In r (fst (mdstat_read hold start fd env)) ->
             array_name (devnm r)) /\
  (forall pre bad post,
      content env = pre ++ bad :: post ->
      ~ array_name (fst bad) ->
      mdstat_read hold start fd env
      = mdstat_read hold start fd (set_content (pre ++ post) env)).
Proof.
  split.
  - apply (mdstat_read_records (fun r => array_name (devnm r))).
    intros all l _ Hok. rewrite devnm_parse_line.
    apply md_name_ok_array_name. exact Hok.
  - intros pre bad post Hc Hbad.
    assert (Hskip : accepted bad = false).
    { unfold accepted. destruct (md_name_ok (fst bad)) eqn:Hn.
      - elim Hbad. apply md_name_ok_array_name. exact Hn.
      - apply andb_false_r. }
    assert (Hrl : read_lines [] (content env) = read_lines [] (pre ++ post)).
    { rewrite Hc, !read_lines_app, read_lines_cons.
      rewrite line_step_skip by exact Hskip. reflexivity. }
    unfold mdstat_read. simpl. rewrite Hrl. reflexivity.
Qed.

Lemma mdstat_read_devnm_witness :
  array_name "md0" /\
  mdstat_read false false (-1)
              (ok_env [Scenario.S1; ("mdadm", ["is"; "idle"]); Scenario.S2])
  = mdstat_read false false (-1) (ok_env [Scenario.S1; Scenario.S2]).
Proof.
  destruct (mdstat_read_devnm
              false false (-1)
              (ok_env [Scenario.S1; ("mdadm", ["is"; "idle"]); Scenario.S2]))
    as [Hname Hskip].
  split.
  - apply (Hname (ent (parse_line [] Scenario.S1))).
    vm_compute. left. reflexivity.
  - apply (Hskip [Scenario.S1] ("mdadm", ["is"; "idle"]) [Scenario.S2]).
    + reflexivity.
    + intros H. apply array_name_md_name_ok in H. vm_compute in H.
      discriminate H.
Defined.

(** C7.  In every record of a snapshot returned by [mdstat_read],
    [devcnt] is the number of elements of [members]; a member word with
    a [[] adds one element and one to the count, a word without it adds
    neither. *)
Theorem devcnt_counts_members :
  (forall hold start fd env r,
      In r (fst (mdstat_read hold start fd env)) ->
      devcnt r = Z.of_nat (List.length (members r))) /\
  (forall w e,
      match strchr w "[" with
      | Some t =>
          members (add_member w e) = strtake t w :: members e /\
          devcnt (add_member w e) = devcnt e + 1
      | None =>
          members (add_member w e) = members e /\
          devcnt (add_member w e) = devcnt e
      end).
Proof.
  split.
  - apply (mdstat_read_records
             (fun r => devcnt r = Z.of_nat (List.length (members r)))).
    intros all l _ _. unfold parse_line.
    apply (words_loop_ent_invariant
             (fun r => devcnt r = Z.of_nat (List.length (members r))));
      intros; simpl; auto.
    + unfold add_member, add_member_devname.
      destruct (strchr w "["); cbn -[Z.of_nat]; lia.
    + unfold status_word, percent_word, kind_word, pattern_of.
      break_match; simpl; auto.
  - intros w e. unfold add_member, add_member_devname.
    destruct (strchr w "["); simpl; split; auto; lia.
Qed.

Lemma devcnt_counts_members_witness :
  In (ent (parse_line [] Scenario.S1))
     (fst (mdstat_read false false (-1) (ok_env [Scenario.S1]))) /\
  devcnt (ent (parse_line [] Scenario.S1)) = 3.
Proof.
  assert (Hin : In (ent (parse_line [] Scenario.S1))
                   (fst (mdstat_read false false (-1)
                                     (ok_env [Scenario.S1])))).
  { vm_compute. left. reflexivity. }
  split; [exact Hin|].
  exact (proj1 devcnt_counts_members false false (-1)
               (ok_env [Scenario.S1]) _ Hin).
Defined.

(** C3.  Whatever the file holds and whatever the system calls answer,
    the list [mdstat_read] returns with [start] set is the reverse of the
    list it returns with [start] clear. *)
Theorem mdstat_read_start_reverses (hold : bool) (fd : Z) (env : io_env) :
  fst (mdstat_read hold true fd env)
  = rev (fst (mdstat_read hold false fd env)).
Proof. apply mdstat_read_rev. Qed.

(** C9.  [mdstat_wait] returns a negative value, having made no system
    call, when the cached descriptor is absent; otherwise it makes one
    call of select on the cached descriptor and returns a positive
    value if an event arrived, zero if the time ran out, and a negative
    value if select failed. *)
Theorem mdstat_wait_result (mdstat_fd seconds : Z) (o : select_outcome) :
  (mdstat_fd < 0 ->
   snd (mdstat_wait mdstat_fd seconds o) = [] /\
   fst (mdstat_wait mdstat_fd seconds o) < 0) /\
  (0 <= mdstat_fd ->
   snd (mdstat_wait mdstat_fd seconds o)
   = [Select (mdstat_fd + 1) mdstat_fd seconds] /\
   match o with
   | Ready _ => 0 < fst (mdstat_wait mdstat_fd seconds o)
   | TimedOut => fst (mdstat_wait mdstat_fd seconds o) = 0
   | Failed => fst (mdstat_wait mdstat_fd seconds o) < 0
   end).
Proof.
  unfold mdstat_wait. split; intros H.
  - destruct (Z.leb_spec 0 mdstat_fd); [lia|]. simpl. split; [reflexivity|lia].
  - destruct (Z.leb_spec 0 mdstat_fd); [|lia]. simpl. split; [reflexivity|].
    destruct o; simpl; lia.
Qed.

Lemma mdstat_wait_result_witness :
  (mdstat_close 7 < 0 /\
   mdstat_wait (mdstat_close 7) 5 (Ready 1) = (-1, [])) /\
  (0 <= 7 /\ 0 < fst (mdstat_wait 7 5 (Ready 1))
   /\ fst (mdstat_wait 7 5 TimedOut) = 0
   /\ fst (mdstat_wait 7 5 Failed) < 0).
Proof.
  split.
  - split; [reflexivity|].
    assert (H : mdstat_close 7 < 0) by reflexivity.
    destruct (proj1 (mdstat_wait_result (mdstat_close 7) 5 (Ready 1)) H)
      as [_ _].
    reflexivity.
  - assert (H : 0 <= 7) by lia.
    split; [exact H|].
    split; [exact (proj2 (proj2 (mdstat_wait_result 7 5 (Ready 1)) H))|].
    split; [exact (proj2 (proj2 (mdstat_wait_result 7 5 TimedOut) H))|].
    exact (proj2 (proj2 (mdstat_wait_result 7 5 Failed) H)).
Defined.

(* ================================================================== *)
(** ** The scenarios S4 and S6 *)

(** C2.  When the lines read so far have given the list [md0], [md1],
    the line S4 of [md3], whose members are [md1] and [md0], puts the
    record of [md3] in front of [md0]: the list returned with [start]
    clear is [md3], [md0], [md1]. *)
Theorem md3_spliced_before_md0 (pre : list conf_line) (e0 e1 : mdstat_ent) :
  snapshot false pre = [e0; e1] ->
  devnm e0 = "md0" -> devnm e1 = "md1" ->
  exists e3,
    fst (mdstat_read false false (-1) (ok_env (pre ++ [Scenario.S4])))
    = [e3; e0; e1]
    /\ devnm e3 = "md3"
    /\ members e3 = ["md0"; "md1"].
Proof.
  intros Hpre H0 H1.
  rewrite mdstat_read_ok. unfold snapshot in *.
  rewrite read_lines_app, Hpre.
  destruct e0 as [n0 a0 l0 p0 c0 r0 d0 k0 v0 m0].
  destruct e1 as [n1 a1 l1 p1 c1 r1 d1 k1 v1 m1].
  simpl in H0, H1. subst n0 n1.
  eexists. split; [reflexivity|]. split; reflexivity.
Qed.

Lemma md3_spliced_before_md0_witness :
  devnm (ent (parse_line [] Scenario.S1)) = "md0" /\
  devnm (ent (parse_line [] Scenario.S2)) = "md1" /\
  map devnm
      (fst (mdstat_read false false (-1)
                        (ok_env [Scenario.S1; Scenario.S2; Scenario.S4])))
  = ["md3"; "md0"; "md1"].
Proof.
  split; [reflexivity|]. split; [reflexivity|].
  destruct (md3_spliced_before_md0
              [Scenario.S1; Scenario.S2]
              (ent (parse_line [] Scenario.S1))
              (ent (parse_line [] Scenario.S2))
              eq_refl eq_refl eq_refl) as (e3 & Hl & Hn & _).
  change ([Scenario.S1; Scenario.S2; Scenario.S4])
    with ([Scenario.S1; Scenario.S2] ++ [Scenario.S4]).
  rewrite Hl. simpl. rewrite Hn. reflexivity.
Defined.

(** C8.  The line S6 gives a record whose metadata version is
    [external:/container0/vol1], which is external, with one raid disk
    and the pattern [U]; and whatever words follow [bitmap:] on the
    line, the record is the same. *)
Theorem S6_record (all : list mdstat_ent) :
  let r := ent (parse_line all Scenario.S6) in
  metadata_version r = Some "external:/container0/vol1" /\
  is_mdstat_ent_external r = true /\
  raid_disks r = 1 /\
  pattern r = Some "U" /\
  forall tail,
    ent (parse_line all ("md5", Scenario.S6_head ++ "bitmap:" :: tail)) = r.
Proof.
  repeat split.
Qed.

(* ================================================================== *)
(** ** The pattern and the progress fields *)

Lemma strtake_last (p : string) :
  forall n, String.length p = S n ->
            p = (strtake n p ++ String (char_at p n) "")%string.
Proof.
  induction p as [|c p IH]; intros n Hlen; simpl in Hlen; [discriminate|].
  destruct n as [|n].
  - destruct p; [reflexivity | discriminate].
  - simpl. f_equal. apply (IH n). lia.
Qed.

Lemma strdrop_last (p : string) :
  forall n, String.length p = S n ->
            strdrop n p = String (char_at p n) "".
Proof.
  induction p as [|c p IH]; intros n Hlen; simpl in Hlen; [discriminate|].
  destruct n as [|n].
  - destruct p; [reflexivity | discriminate].
  - simpl. unfold char_at. simpl. apply (IH n). lia.
Qed.

(** What [pattern_of] keeps of a word that passed the test of its
    branch: all that follows the [[] when the word does not end with
    []], and all but that final []] when it does. *)
Lemma pattern_of_spec (w : string) :
  Ascii.eqb (char_at w 0) "[" = true ->
  Ascii.eqb (char_at w 1) "U" || Ascii.eqb (char_at w 1) "_" = true ->
  (exists c p', pattern_of w = String c p' /\ (c = "U" \/ c = "_")%char) /\
  ((w = String "[" (pattern_of w) /\ ends_with w "]" = false)
   \/ w = String "[" (pattern_of w ++ "]")).
Proof.
  intros H0 H1.
  destruct w as [|b [|c rest]]; try discriminate.
  unfold char_at in H0, H1. simpl in H0, H1.
  apply Ascii.eqb_eq in H0. subst b.
  assert (Hc : (c = "U" \/ c = "_")%char).
  { apply orb_true_iff in H1.
    destruct H1 as [H | H]; apply Ascii.eqb_eq in H; auto. }
  assert (Hend : ends_with (String "[" (String c rest)) "]"
                 = Ascii.eqb (char_at (String c rest) (String.length rest))
                             "]").
  { unfold ends_with, strcmp_eq.
    change (String.length (String "[" (String c rest)) - String.length "]")%nat
      with (S (String.length rest)).
    change (strdrop (S (String.length rest)) (String "[" (String c rest)))
      with (strdrop (String.length rest) (String c rest)).
    rewrite (strdrop_last (String c rest) (String.length rest) eq_refl).
    simpl. destruct (Ascii.eqb _ "]"); reflexivity. }
  unfold pattern_of.
  change (strdrop 1 (String "[" (String c rest))) with (String c rest).
  change (String.length (String "[" (String c rest)) - 2)%nat
    with (String.length rest - 0)%nat.
  rewrite Nat.sub_0_r. rewrite Hend.
  destruct (Ascii.eqb_spec (char_at (String c rest) (String.length rest)) "]")
    as [Heq | Hne].
  - pose proof (strtake_last (String c rest) (String.length rest) eq_refl)
      as Hl.
    rewrite Heq in Hl. split.
    + destruct rest as [|d rest'].
      * unfold char_at in Heq. simpl in Heq. subst c.
        destruct Hc; discriminate.
      * simpl. eauto.
    + right. f_equal. exact Hl.
  - split; [eauto | left; split; reflexivity].
Qed.

(** The branches of [status_word] but one leave the pattern alone. *)
Lemma status_word_pattern (w : string) (e : mdstat_ent) :
  pattern (status_word w e) = pattern e \/
  (pattern (status_word w e) = Some (pattern_of w) /\
   Ascii.eqb (char_at w 0) "[" = true /\
   Ascii.eqb (char_at w 1) "U" || Ascii.eqb (char_at w 1) "_" = true).
Proof.
  unfold status_word.
  destruct (Ascii.eqb (char_at w 0) "[" && isdigit (char_at w 1));
    [left; reflexivity|].
  destruct (is_null (pattern e) && Ascii.eqb (char_at w 0) "["
            && (Ascii.eqb (char_at w 1) "U" || Ascii.eqb (char_at w 1) "_"))
           eqn:Hp.
  - right. apply andb_true_iff in Hp. destruct Hp as [Hp H1].
    apply andb_true_iff in Hp. destruct Hp as [_ H0]. auto.
  - left. unfold percent_word, kind_word. break_match; reflexivity.
Qed.

(** The pattern of the record the word loop makes of a line. *)
Lemma parse_line_pattern (all : list mdstat_ent) (l : conf_line) (p : string) :
  pattern (ent (parse_line all l)) = Some p ->
  (exists c p', p = String c p' /\ (c = "U" \/ c = "_")%char) /\
  exists w, In w (snd l) /\ ((w = String "[" p /\ ends_with w "]" = false)
                         \/ w = String "[" (p ++ "]")).
Proof.
  unfold parse_line. revert p.
  apply (words_loop_invariant_in
           (fun st => forall p, pattern (ent st) = Some p ->
              (exists c p', p = String c p' /\ (c = "U" \/ c = "_")%char) /\
              exists w, In w (snd l) /\
                        ((w = String "[" p /\ ends_with w "]" = false)
                         \/ w = String "[" (p ++ "]")))
           all (snd l)); simpl; auto using incl_refl.
  - intros w st _ H p. unfold rule_member, add_member, add_member_devname.
    destruct (strchr w "["); [destruct (strncmp_eq w "md" 2)|];
      simpl; apply H.
  - intros w st Hin H p.
    destruct (status_word_pattern w (ent st)) as [-> | (-> & H0 & H1)];
      [apply H|].
    intros Hp. injection Hp as <-.
    destruct (pattern_of_spec w H0 H1) as [Hfirst Hw].
    split; [exact Hfirst|]. exists w. auto.
  - intros p Hp. discriminate Hp.
Qed.

(** The pattern of the line [odd_pattern] has a [1] in it. *)
Lemma pattern_not_only_U :
  exists r p,
    In r (fst (mdstat_read false false (-1)
                           (ok_env [Scenario.odd_pattern]))) /\
    pattern r = Some p /\
    ~ (forall c, In c (list_ascii_of_string p) -> (c = "U" \/ c = "_")%char).
Proof.
  exists (ent (parse_line [] Scenario.odd_pattern)), "U1".
  split; [vm_compute; left; reflexivity|].
  split; [reflexivity|].
  intros H. destruct (H "1"%char); [simpl; auto | discriminate | discriminate].
Qed.

(** C4, as the code has it.  If a record of a snapshot returned by
    [mdstat_read] has a pattern, the pattern starts with [U] or [_], and
    some word of the record's line is either [[] followed by the pattern
    and does not end with []], or [[] followed by the pattern and one
    final []]: the pattern is the text after the opening [[], less the
    closing []] exactly when the word ends with one.  The characters
    after the first are not looked at. *)
Theorem pattern_of_snapshot_record
        (hold start : bool) (fd : Z) (env : io_env)
        (r : mdstat_ent) (p : string) :
  In r (fst (mdstat_read hold start fd env)) ->
  pattern r = Some p ->
  (exists c p', p = String c p' /\ (c = "U" \/ c = "_")%char) /\
  exists l w, In l (content env) /\ fst l = devnm r /\ In w (snd l) /\
              ((w = String "[" p /\ ends_with w "]" = false)
                         \/ w = String "[" (p ++ "]")).
Proof.
  intros Hin Hp.
  destruct (mdstat_read_records_line
              (fun l r => fst l = devnm r /\
                 forall p, pattern r = Some p ->
                   (exists c p', p = String c p' /\ (c = "U" \/ c = "_")%char)
                   /\ exists w, In w (snd l) /\
                        ((w = String "[" p /\ ends_with w "]" = false)
                         \/ w = String "[" (p ++ "]")))
              (fun all l _ _ =>
                 conj (eq_sym (devnm_parse_line all l))
                      (parse_line_pattern all l))
              hold start fd env r Hin) as (l & Hl & Hn & H).
  destruct (H p Hp) as [Hfirst (w & Hw & Hshape)].
  split; [exact Hfirst|]. exists l, w. auto.
Qed.

Lemma pattern_of_snapshot_record_witness :
  In (ent (parse_line [] Scenario.S2))
     (fst (mdstat_read false true (-1) (ok_env [Scenario.S1; Scenario.S2])))
  /\ pattern (ent (parse_line [] Scenario.S2)) = Some "U_"
  /\ exists l w, In l [Scenario.S1; Scenario.S2] /\ fst l = "md1" /\
                 In w (snd l) /\
                 ((w = "[U_" /\ ends_with w "]" = false) \/ w = "[U_]").
Proof.
  assert (Hin : In (ent (parse_line [] Scenario.S2))
                   (fst (mdstat_read false true (-1)
                           (ok_env [Scenario.S1; Scenario.S2])))).
  { vm_compute. left. reflexivity. }
  split; [exact Hin|]. split; [reflexivity|].
  exact (proj2 (pattern_of_snapshot_record
                  false true (-1) (ok_env [Scenario.S1; Scenario.S2])
                  (ent (parse_line [] Scenario.S2)) "U_" Hin eq_refl)).
Defined.

(** What [status_word] can do to the [resync] field. *)
Lemma status_word_resync (w : string) (e : mdstat_ent) :
  resync (status_word w e) = resync e \/
  resync (status_word w e) = 0 \/
  (resync (status_word w e) = 1 /\ String.prefix "resync" w = true) \/
  (resync (status_word w e) = 2 /\ String.prefix "reshape" w = true) \/
  (resync (status_word w e) = 3 /\ String.prefix "check" w = true).
Proof.
  rewrite <- (strtake_prefix "resync"), <- (strtake_prefix "reshape"),
    <- (strtake_prefix "check").
  change (String.eqb (strtake (String.length "resync") w) "resync")
    with (strncmp_eq w "resync" 6).
  change (String.eqb (strtake (String.length "reshape") w) "reshape")
    with (strncmp_eq w "reshape" 7).
  change (String.eqb (strtake (String.length "check") w) "check")
    with (strncmp_eq w "check" 5).
  unfold status_word, percent_word, kind_word.
  destruct (strncmp_eq w "resync" 6), (strncmp_eq w "reshape" 7),
    (strncmp_eq w "check" 5);
    break_match; simpl; tauto.
Qed.

(** The [resync] field of the record the word loop makes of a line. *)
Lemma parse_line_resync (all : list mdstat_ent) (l : conf_line) :
  let r := ent (parse_line all l) in
  0 <= resync r <= 3 /\
  (resync r <> 0 ->
   exists w, In w (snd l) /\
     (resync r = 1 /\ String.prefix "resync" w = true \/
      resync r = 2 /\ String.prefix "reshape" w = true \/
      resync r = 3 /\ String.prefix "check" w = true)).
Proof.
  unfold parse_line.
  apply (words_loop_invariant_in
           (fun st =>
              0 <= resync (ent st) <= 3 /\
              (resync (ent st) <> 0 ->
               exists w, In w (snd l) /\
                 (resync (ent st) = 1 /\ String.prefix "resync" w = true \/
                  resync (ent st) = 2 /\ String.prefix "reshape" w = true \/
                  resync (ent st) = 3 /\ String.prefix "check" w = true)))
           all (snd l)); simpl; auto using incl_refl.
  - intros w st _ H. unfold rule_member, add_member, add_member_devname.
    destruct (strchr w "["); [destruct (strncmp_eq w "md" 2)|];
      simpl; apply H.
  - intros w st Hin [Hr Hw].
    destruct (status_word_resync w (ent st))
      as [-> | [-> | [[-> H] | [[-> H] | [-> H]]]]]; auto;
      (split; [lia|]); intros Hne; try (elim Hne; reflexivity);
      exists w; split; auto.
  - split; [lia|]. intros H; elim H; reflexivity.
Qed.

(** The line [bare_percent] gives a percentage of 50 and leaves [resync]
    at the 0 it was initialised with. *)
Lemma percent_without_kind :
  exists r,
    In r (fst (mdstat_read false false (-1)
                           (ok_env [Scenario.bare_percent]))) /\
    0 <= percent r <= 100 /\
    ~ resync r <> 0.
Proof.
  exists (ent (parse_line [] Scenario.bare_percent)).
  split; [vm_compute; left; reflexivity|].
  split; [vm_compute; split; discriminate|].
  intros H. apply H. reflexivity.
Qed.

(** A recovery in progress gives a percentage too, and [resync = 0]. *)
Example recovery_is_zero :
  let r := ent (parse_line [] Scenario.recovering) in
  percent r = 12 /\ resync r = 0.
Proof. split; reflexivity. Qed.

(** C5, as the code has it.  In every record of a snapshot returned by
    [mdstat_read], [resync] is 0, 1, 2 or 3, whether [percent] is a
    percentage or not; 0 is recovery and is also the value the field
    starts with, and the field is 1, 2 or 3 only if a word of the
    record's line begins with [resync], [reshape] or [check]
    respectively. *)
Theorem resync_of_snapshot_record
        (hold start : bool) (fd : Z) (env : io_env) (r : mdstat_ent) :
  In r (fst (mdstat_read hold start fd env)) ->
  0 <= resync r <= 3 /\
  (resync r <> 0 ->
   exists l w, In l (content env) /\ fst l = devnm r /\ In w (snd l) /\
     (resync r = 1 /\ String.prefix "resync" w = true \/
      resync r = 2 /\ String.prefix "reshape" w = true \/
      resync r = 3 /\ String.prefix "check" w = true)).
Proof.
  intros Hin.
  destruct (mdstat_read_records_line
              (fun l r => fst l = devnm r /\
                 (0 <= resync r <= 3 /\
                  (resync r <> 0 ->
                   exists w, In w (snd l) /\
                     (resync r = 1 /\ String.prefix "resync" w = true \/
                      resync r = 2 /\ String.prefix "reshape" w = true \/
                      resync r = 3 /\ String.prefix "check" w = true))))
              (fun all l _ _ =>
                 conj (eq_sym (devnm_parse_line all l))
                      (parse_line_resync all l))
              hold start fd env r Hin) as (l & Hl & Hn & Hr & Hw).
  split; [exact Hr|]. intros Hne.
  destruct (Hw Hne) as (w & Hin' & H). exists l, w. auto.
Qed.

Lemma resync_of_snapshot_record_witness :
  In (ent (parse_line [] Scenario.S2))
     (fst (mdstat_read true false 6 (ok_env [Scenario.S2]))) /\
  resync (ent (parse_line [] Scenario.S2)) = 1 /\
  percent (ent (parse_line [] Scenario.S2)) = 37 /\
  0 <= resync (ent (parse_line [] Scenario.S2)) <= 3.
Proof.
  assert (Hin : In (ent (parse_line [] Scenario.S2))
                   (fst (mdstat_read true false 6 (ok_env [Scenario.S2])))).
  { vm_compute. left. reflexivity. }
  split; [exact Hin|]. split; [reflexivity|]. split; [reflexivity|].
  exact (proj1 (resync_of_snapshot_record
                  true false 6 (ok_env [Scenario.S2]) _ Hin)).
Defined.

(* ================================================================== *)
(** ** The order of the members *)

Lemma status_word_guards (w : string) (e : mdstat_ent) :
  active (status_word w e) = active e /\
  level (status_word w e) = level e /\
  members (status_word w e) = members e.
Proof.
  unfold status_word, percent_word, kind_word.
  break_match; simpl; auto.
Qed.

Lemma add_member_guards (w : string) (e : mdstat_ent) :
  active (add_member w e) = active e /\
  level (add_member w e) = level e /\
  members (add_member w e)
  = (if has_bracket w then [member_name w] else []) ++ members e.
Proof.
  unfold add_member, add_member_devname, has_bracket, member_name.
  destruct (strchr w "["); simpl; auto.
Qed.

Lemma rule_member_ent (all : list mdstat_ent) (w : string) (st : loop_state) :
  ent (rule_member all w st) = add_member w (ent st) /\
  in_devs (rule_member all w st) = in_devs st.
Proof.
  unfold rule_member.
  destruct (strchr w "["); [destruct (strncmp_eq w "md" 2)|]; simpl; auto.
Qed.

(** The members after the word loop: those it started with, and in front
    of them the names of the member words that have a [[], last word
    first. *)
Lemma words_loop_members (all : list mdstat_ent) (ws : list string) :
  forall st,
    members (ent (words_loop all st ws))
    = rev (map member_name
               (filter has_bracket
                       (member_words (0 <? active (ent st))
                                     (negb (is_null (level (ent st))))
                                     (in_devs st) ws)))
      ++ members (ent st).
Proof.
  assert (H : forall n ws st, (List.length ws <= n)%nat ->
    members (ent (words_loop all st ws))
    = rev (map member_name
               (filter has_bracket
                       (member_words (0 <? active (ent st))
                                     (negb (is_null (level (ent st))))
                                     (in_devs st) ws)))
      ++ members (ent st)).
  { induction n as [|n IH]; intros [|w ws'] st Hlen; simpl in Hlen;
      try reflexivity; try lia.
    assert (Hlen' : (List.length ws' <= n)%nat) by lia.
    cbn [words_loop member_words].
    destruct (strcmp_eq w "active"); [rewrite IH by exact Hlen'; reflexivity|].
    destruct (strcmp_eq w "inactive");
      [rewrite IH by exact Hlen'; reflexivity|].
    destruct (strcmp_eq w "bitmap:"); [reflexivity|].
    rewrite negb_involutive.
    destruct ((0 <? active (ent st)) && is_null (level (ent st))
              && negb (Ascii.eqb (char_at w 0) "(")) eqn:Hlv.
    { rewrite IH by exact Hlen'. simpl.
      apply andb_true_iff in Hlv. destruct Hlv as [Hlv _].
      apply andb_true_iff in Hlv. destruct Hlv as [-> _]. reflexivity. }
    destruct (in_devs st && strcmp_eq w "blocks");
      [rewrite IH by exact Hlen'; reflexivity|].
    destruct (in_devs st) eqn:Hd.
    { rewrite IH by exact Hlen'.
      destruct (rule_member_ent all w st) as [-> ->].
      destruct (add_member_guards w (ent st)) as (-> & -> & ->).
      rewrite Hd. cbn [filter].
      destruct (has_bracket w); cbn [map rev app];
        rewrite <- ?app_assoc; reflexivity. }
    assert (Hst : forall ws1, (List.length ws1 <= n)%nat ->
              members (ent (words_loop all (rule_status w st) ws1))
              = rev (map member_name
                       (filter has_bracket
                          (member_words (0 <? active (ent st))
                                        (negb (is_null (level (ent st))))
                                        false ws1)))
                ++ members (ent st)).
    { intros ws1 H1. rewrite IH by exact H1. simpl.
      destruct (status_word_guards w (ent st)) as (-> & -> & ->).
      rewrite Hd. reflexivity. }
    destruct (strcmp_eq w "super"); [|apply Hst; exact Hlen'].
    destruct ws' as [|nxt ws'']; [apply Hst; exact Hlen'|].
    rewrite IH by (simpl in Hlen'; lia). simpl. rewrite Hd. reflexivity. }
  intros st. apply (H (List.length ws)). auto.
Qed.

(** On a line of the usual shape, the member words are the words
    between the level and [blocks]. *)
Lemma member_words_usual (lvl : string) (devs rest : list string) :
  strcmp_eq lvl "active" = false ->
  strcmp_eq lvl "inactive" = false ->
  strcmp_eq lvl "bitmap:" = false ->
  Ascii.eqb (char_at lvl 0) "(" = false ->
  Forall (fun d => strcmp_eq d "active" = false /\
                   strcmp_eq d "inactive" = false /\
                   strcmp_eq d "bitmap:" = false /\
                   strcmp_eq d "blocks" = false) devs ->
  member_words false false false
               (":" :: "active" :: lvl :: devs ++ ["blocks"; "bitmap:"] ++ rest)
  = devs.
Proof.
  intros H1 H2 H3 H4 Hd.
  cbn [member_words].
  change (strcmp_eq ":" "active") with false.
  change (strcmp_eq ":" "inactive") with false.
  change (strcmp_eq ":" "bitmap:") with false.
  change (strcmp_eq ":" "super") with false.
  change (strcmp_eq "active" "active") with true.
  cbn [andb negb].
  rewrite H1, H2, H3, H4. cbn [andb negb].
  induction Hd as [|d devs (Ha & Hi & Hb & Hk) _ IH].
  - reflexivity.
  - cbn [app member_words]. rewrite Ha, Hi, Hb, Hk. cbn [andb negb].
    f_equal. exact IH.
Qed.

(** C10.  In the record the word loop makes of a line, [members] holds
    the names of the line's member words that have a [[], in the reverse
    of the order of the words on the line: the head of [members] is the
    name of the last such word. *)
Theorem members_in_reverse (all : list mdstat_ent) (l : conf_line) :
  let ms := filter has_bracket (member_words false false false (snd l)) in
  members (ent (parse_line all l)) = rev (map member_name ms) /\
  hd_error (members (ent (parse_line all l)))
  = option_map member_name (hd_error (rev ms)).
Proof.
  intros ms.
  assert (Hm : members (ent (parse_line all l)) = rev (map member_name ms)).
  { unfold parse_line. rewrite words_loop_members. simpl.
    apply app_nil_r. }
  split; [exact Hm|].
  rewrite Hm, <- map_rev.
  destruct (rev ms); reflexivity.
Qed.

Example members_of_S1 :
  member_words false false false (snd Scenario.S1)
  = ["sdc1[2]"; "sdb1[1]"; "sda1[0]"; "1048576"] /\
  members (ent (parse_line [] Scenario.S1)) = ["sda1"; "sdb1"; "sdc1"].
Proof. split; reflexivity. Qed.

(* ================================================================== *)
(** ** The order of the records *)

Lemma composites_first_rec_iff (l : list mdstat_ent) :
  composites_first_rec l <-> composites_first l.
Proof.
  unfold composites_first. induction l as [|x l IH]; simpl.
  - split; auto. intros _ [|i] j ri rj _ Hi; discriminate Hi.
  - split.
    + intros [Hx Hl] i j ri rj Hij Hi Hj.
      destruct j as [|j]; [lia|]. simpl in Hj.
      destruct i as [|i]; simpl in Hi.
      * injection Hi as <-. rewrite Forall_forall in Hx.
        apply Hx. eapply nth_error_In. exact Hj.
      * apply (proj1 IH Hl i j); auto. lia.
    + intros H. split.
      * apply Forall_forall. intros y Hy.
        apply In_nth_error in Hy. destruct Hy as [n Hn].
        apply (H 0%nat (S n)); auto. lia.
      * apply IH. intros i j ri rj Hij Hi Hj.
        apply (H (S i) (S j)); auto. lia.
Qed.

Lemma composites_first_rec_app (l1 l2 : list mdstat_ent) :
  composites_first_rec (l1 ++ l2) <->
  composites_first_rec l1 /\ composites_first_rec l2 /\
  (forall x y, In x l1 -> In y l2 -> ~ member_array_of x y).
Proof.
  induction l1 as [|a l1 IH]; simpl.
  - intuition.
  - rewrite Forall_app, IH, !Forall_forall. split.
    + intros [[H1 H2] (H3 & H4 & H5)]. repeat split; auto.
      intros x y [<- | Hx] Hy; auto.
    + intros ((H1 & H2) & H3 & H4). repeat split; auto.
Qed.

Lemma composites_first_rev (l : list mdstat_ent) :
  composites_first l -> components_first (rev l).
Proof.
  intros H i j ri rj Hij Hi Hj.
  rewrite nth_error_rev in Hi, Hj.
  destruct (Nat.ltb_spec i (List.length l)); [|discriminate].
  destruct (Nat.ltb_spec j (List.length l)); [|discriminate].
  apply (H (List.length l - S j)%nat (List.length l - S i)%nat); auto. lia.
Qed.

Lemma In_firstn_le {A : Type} (x : A) (l : list A) :
  forall a b, (a <= b)%nat -> In x (firstn a l) -> In x (firstn b l).
Proof.
  induction l as [|y l IH]; intros [|a] [|b] Hab Hin; simpl in *;
    try tauto; try lia.
  destruct Hin as [-> | Hin]; auto. right. apply (IH a b); auto. lia.
Qed.

Lemma strchr_lt (w : string) (c : ascii) :
  forall n, strchr w c = Some n -> (n < String.length w)%nat.
Proof.
  induction w as [|d w IH]; intros n H; simpl in *; [discriminate|].
  destruct (Ascii.eqb d c).
  - injection H as <-. lia.
  - destruct (strchr w c) as [k|]; [|discriminate].
    injection H as <-. specialize (IH k eq_refl). lia.
Qed.

Lemma strtake_length (w : string) :
  forall n, (n <= String.length w)%nat -> String.length (strtake n w) = n.
Proof.
  induction w as [|c w IH]; intros [|n] H; simpl in *; auto; try lia.
  f_equal. apply IH. lia.
Qed.

Lemma strtake_idem (w : string) :
  forall n, strtake n (strtake n w) = strtake n w.
Proof.
  induction w as [|c w IH]; intros [|n]; simpl; auto.
  f_equal. apply IH.
Qed.

Lemma strtake_md (n : nat) (w : string) :
  strncmp_eq (strtake n w) "md" 2 = true -> strncmp_eq w "md" 2 = true.
Proof.
  unfold strncmp_eq.
  destruct n as [|[|n]], w as [|a [|b w]]; simpl; auto;
    try discriminate;
    destruct (Ascii.eqb a "m"); auto; discriminate.
Qed.

(** A record whose name is the member's name stops the walk. *)
Lemma name_match (x : mdstat_ent) (w : string) (n : nat) :
  strchr w "[" = Some n -> devnm x = strtake n w ->
  name_mismatch x w n = false.
Proof.
  intros Hn Hx. unfold name_mismatch, strncmp_eq.
  rewrite Hx, strtake_idem, String.eqb_refl.
  rewrite strtake_length by (apply strchr_lt in Hn; lia).
  rewrite Nat.eqb_refl. reflexivity.
Qed.

(** Where the walk stops: after [d] records whose names all differ from
    the member's, and not beyond the slot it was given as a limit. *)
Lemma scan_slot_spec (ih : option nat) (w : string) (n : nat)
      (l : list mdstat_ent) :
  forall k, exists d,
    scan_slot ih w n l k = (k + d)%nat /\
    (d <= List.length l)%nat /\
    Forall (fun x => name_mismatch x w n = true) (firstn d l) /\
    (forall k0, ih = Some k0 -> (k <= k0)%nat -> (k + d <= k0)%nat).
Proof.
  induction l as [|e l IH]; intros k; simpl.
  - exists 0%nat. repeat split; auto; simpl; lia.
  - destruct (slot_eqb ih k) eqn:Hs.
    { exists 0%nat. repeat split; simpl; auto; lia. }
    destruct (name_mismatch e w n) eqn:Hm.
    + destruct (IH (S k)) as (d & -> & Hd & Hf & Hk).
      exists (S d). repeat split; simpl; auto; try lia.
      intros k0 Hk0 Hle. specialize (Hk k0 Hk0).
      assert (k <> k0).
      { intros ->. unfold slot_eqb in Hs. rewrite Hk0, Nat.eqb_refl in Hs.
        discriminate Hs. }
      lia.
    + exists 0%nat. repeat split; simpl; auto; lia.
Qed.

Lemma target_slot_le (all : list mdstat_ent) (ih : option nat) :
  (target_slot all ih <= List.length all)%nat.
Proof.
  unfold target_slot. destruct ih as [k|]; [|lia].
  destruct (Nat.ltb_spec k (List.length all)); lia.
Qed.

(** The member branch keeps [ahead_of_members], the names of the records
    built so far all starting with [md]. *)
Lemma rule_member_ahead (all : list mdstat_ent) (w : string)
      (st : loop_state) :
  Forall (fun x => strncmp_eq (devnm x) "md" 2 = true) all ->
  ahead_of_members all st -> ahead_of_members all (rule_member all w st).
Proof.
  intros Hmd H. unfold ahead_of_members, rule_member, add_member,
                  add_member_devname in *.
  destruct (strchr w "[") as [n|] eqn:Hn; [|exact H].
  destruct (strncmp_eq w "md" 2) eqn:Hw; simpl.
  - destruct (scan_slot_spec (insert_here st) w n all 0)
      as (d & -> & Hd & Hf & Hk).
    simpl. destruct (Nat.ltb_spec d (List.length all)) as [Hlt | Hge];
      [|replace (List.length all) with d by lia];
      intros x Hx [Heq | Hin];
      try (rewrite Forall_forall in Hf; specialize (Hf x Hx);
           rewrite (name_match x w n Hn (eq_sym Heq)) in Hf;
           discriminate Hf);
      (apply (H x); [|exact Hin]);
      apply (In_firstn_le x all d); auto;
      unfold target_slot;
      destruct (insert_here st) as [k0|]; try lia;
      destruct (Nat.ltb_spec k0 (List.length all)); try lia;
      apply (Hk k0 eq_refl); lia.
  - intros x Hx [Heq | Hin]; [|apply (H x); auto].
    assert (Hx' : In x all).
    { rewrite <- (firstn_skipn (target_slot all (insert_here st)) all).
      apply in_or_app. left. exact Hx. }
    rewrite Forall_forall in Hmd. specialize (Hmd x Hx').
    rewrite <- Heq in Hmd. apply strtake_md in Hmd. congruence.
Qed.

Lemma parse_line_ahead (all : list mdstat_ent) (l : conf_line) :
  Forall (fun x => strncmp_eq (devnm x) "md" 2 = true) all ->
  ahead_of_members all (parse_line all l).
Proof.
  intros Hmd. unfold parse_line.
  apply (words_loop_invariant (ahead_of_members all)).
  - intros st H. exact H.
  - intros st H. exact H.
  - intros w st H. exact H.
  - intros st H. exact H.
  - intros w st. apply rule_member_ahead. exact Hmd.
  - intros w st H. exact H.
  - intros w st H x Hx. unfold rule_status, with_ent. simpl.
    destruct (status_word_guards w (ent st)) as (_ & _ & ->).
    apply (H x Hx).
  - intros x _ [].
Qed.

(** The members of the record do not depend on the list built so far. *)
Lemma parse_line_members (all : list mdstat_ent) (l : conf_line) :
  members (ent (parse_line all l)) = line_members l.
Proof.
  unfold line_members, parse_line. rewrite !words_loop_members. reflexivity.
Qed.

Lemma md_name_ok_md (nm : string) :
  md_name_ok nm = true -> strncmp_eq nm "md" 2 = true.
Proof.
  unfold md_name_ok. intros H.
  destruct (strncmp_eq nm "md" 2); [reflexivity | discriminate H].
Qed.

Lemma accepted_true (l : conf_line) :
  accepted l = true ->
  is_header (fst l) = false /\ md_name_ok (fst l) = true.
Proof.
  unfold accepted. intros H. apply andb_true_iff in H.
  destruct H as [H1 H2]. apply negb_true_iff in H1. auto.
Qed.

(** With [start] set, the list of S1, S2 and S4 starts with [md1], a
    member-array of the [md3] that ends it. *)
Lemma component_precedes_composite :
  ~ composites_first
      (fst (mdstat_read false true (-1)
              (ok_env [Scenario.S1; Scenario.S2; Scenario.S4]))).
Proof.
  intros H.
  apply (H 0%nat 2%nat (ent (parse_line [] Scenario.S2))
           (ent (parse_line [] Scenario.S4))).
  - lia.
  - reflexivity.
  - reflexivity.
  - vm_compute. right. left. reflexivity.
Qed.

(** When the middle array of three levels is listed last, it ends up in
    front of the array built on it, with [start] clear too. *)
Example stacked_order :
  map devnm (snapshot false Scenario.stacked) = ["md1"; "md0"; "md2"] /\
  ~ composites_first (snapshot false Scenario.stacked).
Proof.
  split; [reflexivity|]. intros H.
  apply (H 0%nat 2%nat
           (ent (parse_line [ent (parse_line [] (nth 0 Scenario.stacked
                                                    ("", [])))]
                            (nth 2 Scenario.stacked ("", []))))
           (ent (parse_line [] (nth 1 Scenario.stacked ("", []))))).
  - lia.
  - reflexivity.
  - reflexivity.
  - vm_compute. right. left. reflexivity.
Qed.

(* ================================================================== *)
(** ** Detaching and finding records *)

Lemma detach_walk_spec (l : list mdstat_ent) :
  forall k d,
    detach_walk l k (k + S d)
    = if (S d <? List.length l)%nat
      then Some (firstn (S d) l ++ skipn (S (S d)) l)
      else None.
Proof.
  induction l as [|e l IH]; intros k d; [reflexivity|].
  destruct l as [|e' l'']; [reflexivity|].
  change (detach_walk (e :: e' :: l'') k (k + S d))
    with (if Nat.eqb (S k) (k + S d) then Some (e :: l'')
          else option_map (cons e)
                          (detach_walk (e' :: l'') (S k) (k + S d))).
  destruct d as [|d].
  - replace (k + 1)%nat with (S k) by lia. rewrite Nat.eqb_refl. reflexivity.
  - destruct (Nat.eqb_spec (S k) (k + S (S d))); [lia|].
    replace (k + S (S d))%nat with (S k + S d)%nat by lia.
    rewrite IH.
    change (List.length (e :: e' :: l'')) with (S (List.length (e' :: l''))).
    destruct (Nat.ltb_spec (S d) (List.length (e' :: l'')));
      destruct (Nat.ltb_spec (S (S d)) (S (List.length (e' :: l''))));
      try lia; reflexivity.
Qed.

Lemma detach_element_at (l : list mdstat_ent) (el : nat) :
  match nth_error l el with
  | Some x =>
      mdstat_ent_list_detach_element l el
      = Some (firstn el l ++ skipn (S el) l, x)
  | None => mdstat_ent_list_detach_element l el = None
  end.
Proof.
  unfold mdstat_ent_list_detach_element.
  destruct l as [|e rest]; [destruct el; reflexivity|].
  destruct el as [|d]; [reflexivity|].
  destruct (Nat.eqb 0 (S d)) eqn:E; [discriminate E|].
  pose proof (detach_walk_spec (e :: rest) 0 d) as Hw.
  change (0 + S d)%nat with (S d) in Hw. rewrite Hw.
  destruct (nth_error (e :: rest) (S d)) as [x|] eqn:Hx.
  - assert (H : (S d < List.length (e :: rest))%nat)
      by (apply nth_error_Some; congruence).
    apply Nat.ltb_lt in H. rewrite H. reflexivity.
  - destruct (S d <? List.length (e :: rest))%nat; reflexivity.
Qed.

(** Detaching the record at a position of the list gives that record
    and the list without it, the other records in their order; detaching
    what is not in the list, or from the empty list, trips the
    assertion. *)
Theorem detach_element_spec (l : list mdstat_ent) (el : nat) :
  match nth_error l el with
  | Some x =>
      mdstat_ent_list_detach_element l el
      = Some (firstn el l ++ skipn (S el) l, x)
  | None => mdstat_ent_list_detach_element l el = None
  end.
Proof. exact (detach_element_at l el). Qed.

Lemma member_listed_In (m : list string) (name : string) :
  member_listed m name = true <-> In name m.
Proof.
  induction m as [|n m IH]; simpl; [intuition discriminate|].
  unfold strcmp_eq. destruct (String.eqb_spec n name) as [-> | Hne].
  - intuition.
  - rewrite IH. intuition congruence.
Qed.

Lemma find_by_member_first (is_subarray : string -> bool)
        (l : list mdstat_ent) (name : string) :
  match mdstat_find_by_member_name is_subarray l name with
  | Some k =>
      exists e, nth_error l k = Some e /\
                is_mdstat_ent_subarray is_subarray e = false /\
                In name (members e) /\
                forall j e', (j < k)%nat -> nth_error l j = Some e' ->
                             is_mdstat_ent_subarray is_subarray e' = true \/
                             ~ In name (members e')
  | None =>
      forall e, In e l ->
                is_mdstat_ent_subarray is_subarray e = true \/
                ~ In name (members e)
  end.
Proof.
  induction l as [|e l IH]; simpl; [intros e []|].
  destruct (is_mdstat_ent_subarray is_subarray e) eqn:Hs;
    [|destruct (member_listed (members e) name) eqn:Hm].
  - destruct (mdstat_find_by_member_name is_subarray l name) as [k|]; simpl.
    + destruct IH as (x & Hx & H1 & H2 & H3). exists x. repeat split; auto.
      intros [|j] e' Hj He'; simpl in He'.
      * injection He' as <-. auto.
      * apply (H3 j); auto. lia.
    + intros x [<- | Hx]; auto.
  - exists e. repeat split; auto.
    + apply member_listed_In. exact Hm.
    + intros j e' Hj. lia.
  - assert (Hn : ~ In name (members e)).
    { intros H. apply member_listed_In in H. congruence. }
    destruct (mdstat_find_by_member_name is_subarray l name) as [k|]; simpl.
    + destruct IH as (x & Hx & H1 & H2 & H3). exists x. repeat split; auto.
      intros [|j] e' Hj He'; simpl in He'.
      * injection He' as <-. auto.
      * apply (H3 j); auto. lia.
    + intros x [<- | Hx]; auto.
Qed.

(** [mdstat_find_by_member_name] returns the first record of the list
    that is not a subarray and lists the name among its members, and
    NULL exactly when the list has no such record. *)
Theorem find_by_member_spec (is_subarray : string -> bool)
        (l : list mdstat_ent) (name : string) :
  match mdstat_find_by_member_name is_subarray l name with
  | Some k =>
      exists e, nth_error l k = Some e /\
                is_mdstat_ent_subarray is_subarray e = false /\
                In name (members e) /\
                forall j e', (j < k)%nat -> nth_error l j = Some e' ->
                             is_mdstat_ent_subarray is_subarray e' = true \/
                             ~ In name (members e')
  | None =>
      forall e, In e l ->
                is_mdstat_ent_subarray is_subarray e = true \/
                ~ In name (members e)
  end.
Proof. exact (find_by_member_first is_subarray l name). Qed.

(** [mdstat_by_component] never trips the assertion of the detach: it
    returns a record of the fresh snapshot that is not a subarray and
    lists the name among its members, and NULL exactly when the snapshot
    has no such record. *)
Theorem by_component_spec (is_subarray : string -> bool)
        (fd : Z) (env : io_env) (name : string) :
  match mdstat_by_component is_subarray fd env name with
  | Aborted => False
  | Found e =>
      In e (fst (mdstat_read false false fd env)) /\
      is_mdstat_ent_subarray is_subarray e = false /\
      In name (members e)
  | NotFound =>
      forall e, In e (fst (mdstat_read false false fd env)) ->
                is_mdstat_ent_subarray is_subarray e = true \/
                ~ In name (members e)
  end.
Proof.
  unfold mdstat_by_component.
  pose proof (find_by_member_first
                is_subarray (fst (mdstat_read false false fd env)) name) as H.
  destruct (mdstat_find_by_member_name
              is_subarray (fst (mdstat_read false false fd env)) name)
    as [k|]; [|exact H].
  destruct H as (e & He & H1 & H2 & _).
  pose proof (detach_element_at
                (fst (mdstat_read false false fd env)) k) as Hd.
  rewrite He in Hd. rewrite Hd.
  repeat split; auto. eapply nth_error_In. exact He.
Qed.

(** What the loop of [mdstat_by_subdev] finds. *)
Lemma find_subdev_spec (cm sm : string -> string -> bool)
      (l : list mdstat_ent) (subdev container : string) :
  let hit e := is_mdstat_ent_external e
               && cm (version_tail e) container
               && sm (version_tail e) subdev in
  match find_subdev cm sm l subdev container with
  | Some k =>
      exists e, nth_error l k = Some e /\ hit e = true /\
                forall j e', (j < k)%nat -> nth_error l j = Some e' ->
                             hit e' = false
  | None => forall e, In e l -> hit e = false
  end.
Proof.
  intros hit. induction l as [|e l IH]; simpl; [intros e []|].
  assert (Hstep : hit e = false ->
    match option_map S (find_subdev cm sm l subdev container) with
    | Some k =>
        exists e0, nth_error (e :: l) k = Some e0 /\ hit e0 = true /\
                   forall j e', (j < k)%nat ->
                                nth_error (e :: l) j = Some e' ->
                                hit e' = false
    | None => forall e0, e = e0 \/ In e0 l -> hit e0 = false
    end).
  { intros Hh.
    destruct (find_subdev cm sm l subdev container) as [k|]; simpl.
    - destruct IH as (x & Hx & H1 & H2). exists x. repeat split; auto.
      intros [|j] e' Hj He'; simpl in He'.
      + injection He' as <-. exact Hh.
      + apply (H2 j); auto. lia.
    - intros x [<- | Hx]; auto. }
  destruct (is_mdstat_ent_external e) eqn:E1; cbn [negb];
    [|apply Hstep; unfold hit; rewrite E1; reflexivity].
  destruct (cm (version_tail e) container) eqn:E2; cbn [negb];
    [|apply Hstep; unfold hit; rewrite E1, E2; reflexivity].
  destruct (sm (version_tail e) subdev) eqn:E3; cbn [negb];
    [|apply Hstep; unfold hit; rewrite E1, E2, E3; reflexivity].
  exists e. repeat split; auto.
  - unfold hit. rewrite E1, E2, E3. reflexivity.
  - intros j e' Hj. lia.
Qed.

(** [mdstat_by_subdev] never trips the assertion either: it returns a
    record of the fresh snapshot that is external and whose version
    tail matches both the container and the subdevice, and NULL exactly
    when the snapshot has no such record. *)
Theorem by_subdev_spec (cm sm : string -> string -> bool)
        (fd : Z) (env : io_env) (subdev container : string) :
  let hit e := is_mdstat_ent_external e
               && cm (version_tail e) container
               && sm (version_tail e) subdev in
  match mdstat_by_subdev cm sm fd env subdev container with
  | Aborted => False
  | Found e => In e (fst (mdstat_read false false fd env)) /\ hit e = true
  | NotFound =>
      forall e, In e (fst (mdstat_read false false fd env)) -> hit e = false
  end.
Proof.
  intros hit. unfold mdstat_by_subdev.
  pose proof (find_subdev_spec
                cm sm (fst (mdstat_read false false fd env))
                subdev container) as H.
  fold hit in H.
  destruct (find_subdev cm sm (fst (mdstat_read false false fd env))
                        subdev container) as [k|]; [|exact H].
  destruct H as (e & He & H1 & _).
  pose proof (detach_element_at
                (fst (mdstat_read false false fd env)) k) as Hd.
  rewrite He in Hd. rewrite Hd.
  split; auto. eapply nth_error_In. exact He.
Qed.

(* ================================================================== *)
(** ** More on the records the word loop builds *)

Lemma strtake_no_char (w : string) (c : ascii) :
  forall n, strchr w c = Some n -> strchr (strtake n w) c = None.
Proof.
  induction w as [|d w IH]; intros n H; simpl in H; [discriminate|].
  destruct (Ascii.eqb d c) eqn:Hd.
  - injection H as <-. reflexivity.
  - destruct (strchr w c) as [k|] eqn:Hk; [|discriminate].
    injection H as <-. simpl. rewrite Hd, (IH k eq_refl). reflexivity.
Qed.

(** No member name of a record returned by [mdstat_read] has a [[] in
    it: a name stops before the first [[] of its word. *)
Theorem member_names_clean (hold start : bool) (fd : Z) (env : io_env)
        (r : mdstat_ent) (m : string) :
  In r (fst (mdstat_read hold start fd env)) ->
  In m (members r) ->
  strchr m "[" = None.
Proof.
  intros Hin. revert m.
  apply (mdstat_read_records
           (fun r => forall m, In m (members r) -> strchr m "[" = None))
    with (hold := hold) (start := start) (fd := fd) (env := env);
    [|exact Hin].
  intros all l _ _. unfold parse_line.
  apply (words_loop_ent_invariant
           (fun r => forall m, In m (members r) -> strchr m "[" = None));
    simpl; auto.
  - intros w e H m. unfold add_member, add_member_devname.
    destruct (strchr w "[") as [n|] eqn:Hn; simpl; auto.
    intros [<- | Hm]; auto. apply strtake_no_char. exact Hn.
  - intros w e H m. destruct (status_word_guards w e) as (_ & _ & ->).
    apply H.
  - intros m [].
Qed.

Lemma member_names_clean_witness :
  In (ent (parse_line [] Scenario.S2))
     (fst (mdstat_read false false (-1) (ok_env [Scenario.S2]))) /\
  In "sde1" (members (ent (parse_line [] Scenario.S2))) /\
  strchr "sde1" "[" = None.
Proof.
  assert (Hin : In (ent (parse_line [] Scenario.S2))
                   (fst (mdstat_read false false (-1)
                                     (ok_env [Scenario.S2]))))
    by (vm_compute; left; reflexivity).
  assert (Hm : In "sde1" (members (ent (parse_line [] Scenario.S2))))
    by (vm_compute; left; reflexivity).
  split; [exact Hin|]. split; [exact Hm|].
  exact (member_names_clean false false (-1) (ok_env [Scenario.S2])
                            _ "sde1" Hin Hm).
Defined.

Lemma status_word_progress_kept (w : string) (e : mdstat_ent) :
  percent e <> RESYNC_NONE ->
  percent (status_word w e) = percent e /\
  resync (status_word w e) = resync e.
Proof.
  intros H. apply Z.eqb_neq in H.
  unfold status_word. rewrite H. cbn [andb].
  break_match; simpl; auto.
Qed.

(** Once [percent] holds something else than [RESYNC_NONE], no later
    word of the line changes [percent] or [resync]: the first progress
    word wins. *)
Theorem progress_set_once (all : list mdstat_ent) (st : loop_state)
        (ws : list string) :
  percent (ent st) <> RESYNC_NONE ->
  percent (ent (words_loop all st ws)) = percent (ent st) /\
  resync (ent (words_loop all st ws)) = resync (ent st).
Proof.
  intros Hp.
  apply (words_loop_ent_invariant
           (fun e => percent e = percent (ent st) /\
                     resync e = resync (ent st))); simpl; auto.
  - intros w e H. unfold add_member, add_member_devname.
    destruct (strchr w "["); simpl; exact H.
  - intros w e [H1 H2].
    destruct (status_word_progress_kept w e) as [-> ->]; auto.
    rewrite H1. exact Hp.
Qed.

Lemma progress_set_once_witness :
  percent (ent (parse_line [] Scenario.S2)) <> RESYNC_NONE /\
  percent (ent (words_loop [] (parse_line [] Scenario.S2)
                           ["recovery=99%"; "check"; "12%"])) = 37 /\
  resync (ent (words_loop [] (parse_line [] Scenario.S2)
                          ["recovery=99%"; "check"; "12%"])) = 1.
Proof.
  assert (H : percent (ent (parse_line [] Scenario.S2)) <> RESYNC_NONE)
    by (vm_compute; discriminate).
  split; [exact H|].
  exact (progress_set_once [] (parse_line [] Scenario.S2)
                           ["recovery=99%"; "check"; "12%"] H).
Defined.

Lemma words_loop_level_kept (all : list mdstat_ent) (lv : string)
      (ws : list string) :
  forall st, level (ent st) = Some lv ->
             level (ent (words_loop all st ws)) = Some lv.
Proof.
  assert (H : forall n ws st, (List.length ws <= n)%nat ->
                level (ent st) = Some lv ->
                level (ent (words_loop all st ws)) = Some lv).
  { induction n as [|n IH]; intros [|w ws'] st Hlen Hlv; simpl in Hlen;
      try exact Hlv; try lia.
    assert (Hlen' : (List.length ws' <= n)%nat) by lia.
    cbn [words_loop].
    destruct (strcmp_eq w "active"); [apply IH; auto|].
    destruct (strcmp_eq w "inactive"); [apply IH; auto|].
    destruct (strcmp_eq w "bitmap:"); [exact Hlv|].
    rewrite Hlv. cbn [is_null andb]. rewrite andb_false_r. cbn [andb].
    destruct (in_devs st && strcmp_eq w "blocks"); [apply IH; auto|].
    destruct (in_devs st).
    { apply IH; auto. destruct (rule_member_ent all w st) as [-> _].
      destruct (add_member_guards w (ent st)) as (_ & -> & _). exact Hlv. }
    assert (Hst : level (ent (rule_status w st)) = Some lv).
    { simpl. destruct (status_word_guards w (ent st)) as (_ & -> & _).
      exact Hlv. }
    destruct (strcmp_eq w "super"); [|apply IH; auto].
    destruct ws' as [|nxt ws'']; [apply IH; auto|].
    apply IH; [simpl in Hlen'; lia | exact Hlv]. }
  intros st. apply (H (List.length ws)). auto.
Qed.

Lemma status_word_pattern_kept (w : string) (e : mdstat_ent) (p : string) :
  pattern e = Some p -> pattern (status_word w e) = Some p.
Proof.
  intros H. unfold status_word, percent_word, kind_word.
  rewrite H. cbn [is_null andb].
  break_match; simpl; exact H.
Qed.

(** A level or a pattern, once stored, is not replaced by a later word
    of the line. *)
Theorem level_and_pattern_set_once (all : list mdstat_ent)
        (st : loop_state) (ws : list string) :
  (forall lv, level (ent st) = Some lv ->
              level (ent (words_loop all st ws)) = Some lv) /\
  (forall p, pattern (ent st) = Some p ->
             pattern (ent (words_loop all st ws)) = Some p).
Proof.
  split.
  - intros lv. apply words_loop_level_kept.
  - intros p Hp.
    apply (words_loop_ent_invariant (fun e => pattern e = Some p));
      simpl; auto.
    + intros w e H. unfold add_member, add_member_devname.
      destruct (strchr w "["); simpl; exact H.
    + intros w e. apply status_word_pattern_kept.
Qed.

Lemma level_and_pattern_set_once_witness :
  level (ent (parse_line [] Scenario.S1)) = Some "raid5" /\
  pattern (ent (parse_line [] Scenario.S1)) = Some "UUU" /\
  level (ent (words_loop [] (parse_line [] Scenario.S1)
                         ["active"; "raid1"; "[__]"])) = Some "raid5" /\
  pattern (ent (words_loop [] (parse_line [] Scenario.S1)
                           ["active"; "raid1"; "[__]"])) = Some "UUU".
Proof.
  split; [reflexivity|]. split; [reflexivity|].
  destruct (level_and_pattern_set_once
              [] (parse_line [] Scenario.S1) ["active"; "raid1"; "[__]"])
    as [Hl Hp].
  split; [exact (Hl "raid5" eq_refl) | exact (Hp "UUU" eq_refl)].
Defined.

(** The invariant principle again, each branch being given the tests
    that lead to it. *)
Lemma words_loop_invariant_guarded (P : loop_state -> Prop)
      (all : list mdstat_ent) :
  (forall st, P st -> P (rule_active st)) ->
  (forall st, P st -> P (rule_inactive st)) ->
  (forall w st, (0 <? active (ent st)) = true ->
                is_null (level (ent st)) = true ->
                P st -> P (rule_level w st)) ->
  (forall st, P st -> P (rule_blocks st)) ->
  (forall w st, in_devs st = true -> P st -> P (rule_member all w st)) ->
  (forall w st, in_devs st = false -> P st -> P (rule_super w st)) ->
  (forall w st, in_devs st = false -> P st -> P (rule_status w st)) ->
  forall ws st, P st -> P (words_loop all st ws).
Proof.
  intros Ha Hi Hl Hb Hm Hs Ht ws.
  assert (H : forall n ws st, (List.length ws <= n)%nat -> P st ->
                              P (words_loop all st ws)).
  { induction n as [|n IH]; intros [|w ws'] st Hlen Hst; simpl in *;
      try assumption; try lia.
    assert (Hlen' : (List.length ws' <= n)%nat) by lia.
    destruct (strcmp_eq w "active"); [apply IH; auto|].
    destruct (strcmp_eq w "inactive"); [apply IH; auto|].
    destruct (strcmp_eq w "bitmap:"); [assumption|].
    destruct ((0 <? active (ent st)) && is_null (level (ent st))
              && negb (Ascii.eqb (char_at w 0) "(")) eqn:Hlv.
    { apply andb_true_iff in Hlv. destruct Hlv as [Hlv _].
      apply andb_true_iff in Hlv. destruct Hlv as [H1 H2].
      apply IH; auto. }
    destruct (in_devs st && strcmp_eq w "blocks"); [apply IH; auto|].
    destruct (in_devs st) eqn:Hd; [apply IH; auto|].
    destruct (strcmp_eq w "super"); [|apply IH; auto].
    destruct ws' as [|nxt ws'']; [apply IH; auto|].
    apply IH; [simpl in Hlen'; lia | auto]. }
  intros st Hst. apply (H (List.length ws)); auto.
Qed.

(** In every record returned by [mdstat_read], [active] is -1, 0 or 1;
    and a record whose [active] is still -1, no word [active] or
    [inactive] having been met, has no level and no members. *)
Theorem active_tristate (hold start : bool) (fd : Z) (env : io_env)
        (r : mdstat_ent) :
  In r (fst (mdstat_read hold start fd env)) ->
  (active r = -1 \/ active r = 0 \/ active r = 1) /\
  (active r = -1 -> level r = None /\ members r = [] /\ devcnt r = 0).
Proof.
  apply (mdstat_read_records
           (fun r => (active r = -1 \/ active r = 0 \/ active r = 1) /\
                     (active r = -1 ->
                      level r = None /\ members r = [] /\ devcnt r = 0))).
  intros all l _ _. unfold parse_line.
  assert (H : let st := words_loop all (init_state (fst l)) (snd l) in
              (active (ent st) = -1 \/ active (ent st) = 0
               \/ active (ent st) = 1) /\
              (active (ent st) = -1 ->
               in_devs st = false /\ level (ent st) = None /\
               members (ent st) = [] /\ devcnt (ent st) = 0)).
  { apply (words_loop_invariant_guarded
             (fun st =>
                (active (ent st) = -1 \/ active (ent st) = 0
                 \/ active (ent st) = 1) /\
                (active (ent st) = -1 ->
                 in_devs st = false /\ level (ent st) = None /\
                 members (ent st) = [] /\ devcnt (ent st) = 0))); simpl.
    - intros st _. split; [auto | discriminate].
    - intros st _. split; [auto | discriminate].
    - intros w st Hact _ [H1 H2]. split; [exact H1|].
      intros Hneg. rewrite Hneg in Hact. discriminate Hact.
    - intros st [H1 H2]. split; [exact H1|]. intros Hneg.
      destruct (H2 Hneg) as (_ & Hl & Hm & Hc). auto.
    - intros w st Hd [H1 H2].
      destruct (rule_member_ent all w st) as [-> ->].
      destruct (add_member_guards w (ent st)) as (-> & _ & _).
      split; [exact H1|]. intros Hneg.
      destruct (H2 Hneg) as (Hd' & _). congruence.
    - intros w st _ H. exact H.
    - intros w st _ [H1 H2].
      destruct (status_word_guards w (ent st)) as (-> & -> & ->).
      split; [exact H1|]. intros Hneg.
      destruct (H2 Hneg) as (Hd & Hl & Hm & Hc). repeat split; auto.
      rewrite <- Hc. unfold status_word, percent_word, kind_word.
      break_match; reflexivity.
    - split; [auto|]. intros _. auto. }
  simpl in H. destruct H as [H1 H2]. split; [exact H1|].
  intros Hneg. destruct (H2 Hneg) as (_ & Hl & Hm & Hc). auto.
Qed.

Lemma active_tristate_witness :
  In (ent (parse_line [] ("md9", ["sda1[0]"; "blocks"; "[UU]"])))
     (fst (mdstat_read false false (-1)
             (ok_env [("md9", ["sda1[0]"; "blocks"; "[UU]"])]))) /\
  active (ent (parse_line [] ("md9", ["sda1[0]"; "blocks"; "[UU]"]))) = -1 /\
  members (ent (parse_line [] ("md9", ["sda1[0]"; "blocks"; "[UU]"]))) = [].
Proof.
  assert (Hin : In (ent (parse_line [] ("md9", ["sda1[0]"; "blocks"; "[UU]"])))
                   (fst (mdstat_read false false (-1)
                           (ok_env [("md9", ["sda1[0]"; "blocks"; "[UU]"])]))))
    by (vm_compute; left; reflexivity).
  split; [exact Hin|]. split; [reflexivity|].
  exact (proj1 (proj2 (proj2 (active_tristate
                                false false (-1) _ _ Hin) eq_refl))).
Defined.

(* ================================================================== *)
(** ** The record and its place in the list *)

Lemma words_loop_ent_indep (all all' : list mdstat_ent) :
  forall n ws st st',
    (List.length ws <= n)%nat ->
    ent st = ent st' -> in_devs st = in_devs st' ->
    ent (words_loop all st ws) = ent (words_loop all' st' ws).
Proof.
  induction n as [|n IH]; intros [|w ws'] st st' Hlen He Hd;
    simpl in Hlen; try exact He; try lia.
  assert (Hlen' : (List.length ws' <= n)%nat) by lia.
  cbn [words_loop]. rewrite <- He, <- Hd.
  destruct (strcmp_eq w "active");
    [apply IH; simpl; auto; congruence|].
  destruct (strcmp_eq w "inactive");
    [apply IH; simpl; auto; congruence|].
  destruct (strcmp_eq w "bitmap:"); [exact He|].
  destruct ((0 <? active (ent st)) && is_null (level (ent st))
            && negb (Ascii.eqb (char_at w 0) "("));
    [apply IH; simpl; auto; congruence|].
  destruct (in_devs st && strcmp_eq w "blocks");
    [apply IH; simpl; auto|].
  destruct (in_devs st) eqn:Hds.
  { apply IH; auto.
    - destruct (rule_member_ent all w st) as [-> _].
      destruct (rule_member_ent all' w st') as [-> _]. congruence.
    - destruct (rule_member_ent all w st) as [_ ->].
      destruct (rule_member_ent all' w st') as [_ ->]. congruence. }
  destruct (strcmp_eq w "super").
  - destruct ws' as [|nxt ws''].
    + apply IH; simpl; auto; congruence.
    + apply IH; simpl; auto; try congruence. simpl in Hlen'. lia.
  - apply IH; simpl; auto; congruence.
Qed.

Lemma parse_line_ent_alone (all : list mdstat_ent) (l : conf_line) :
  ent (parse_line all l) = ent (parse_line [] l).
Proof.
  unfold parse_line.
  apply (words_loop_ent_indep all [] (List.length (snd l))); auto.
Qed.

(** The record the word loop makes of a line depends on the line alone,
    not on the records of the lines before it. *)
Theorem parse_line_stateless (all : list mdstat_ent) (l : conf_line) :
  ent (parse_line all l) = ent (parse_line [] l).
Proof. exact (parse_line_ent_alone all l). Qed.

Lemma strtake_all (s : string) :
  forall n, String.length s = n -> strtake n s = s.
Proof.
  induction s as [|c s IH]; intros [|n] H; simpl in *; auto; try lia.
  f_equal. apply IH. lia.
Qed.

Lemma name_mismatch_false (x : mdstat_ent) (w : string) (n : nat) :
  name_mismatch x w n = false -> devnm x = strtake n w.
Proof.
  unfold name_mismatch, strncmp_eq. intros H.
  apply orb_false_iff in H. destruct H as [H1 H2].
  apply negb_false_iff in H1, H2.
  apply Nat.eqb_eq in H1. apply String.eqb_eq in H2.
  rewrite <- H2. symmetry. apply strtake_all. exact H1.
Qed.

(** Why the walk stops short of the end of the list: it met the slot it
    was given as a limit, or a record with the member's name. *)
Lemma scan_slot_stop (ih : option nat) (w : string) (n : nat)
      (l : list mdstat_ent) :
  forall k,
    (scan_slot ih w n l k < k + List.length l)%nat ->
    ih = Some (scan_slot ih w n l k) \/
    exists x, nth_error l (scan_slot ih w n l k - k) = Some x /\
              devnm x = strtake n w.
Proof.
  induction l as [|e l IH]; intros k Hlt; simpl in *; [lia|].
  destruct (slot_eqb ih k) eqn:Hs.
  - left. unfold slot_eqb in Hs. destruct ih as [k'|]; [|discriminate].
    apply Nat.eqb_eq in Hs. congruence.
  - destruct (name_mismatch e w n) eqn:Hm.
    + destruct (IH (S k)) as [H | (x & Hx & Hn)]; [lia | auto |].
      right. exists x. split; [|exact Hn].
      destruct (scan_slot_spec ih w n l (S k)) as (d & Hd & _).
      rewrite Hd in *.
      replace (S k + d - k)%nat with (S d) by lia.
      replace (S k + d - S k)%nat with d in Hx by lia. exact Hx.
    + right. exists e. rewrite Nat.sub_diag. split; [reflexivity|].
      apply name_mismatch_false. exact Hm.
Qed.

(** While the word loop runs, a slot [insert_here] inside the list is
    the slot of a record that bears the name of a member collected so
    far. *)
Lemma parse_line_anchored (all : list mdstat_ent) (l : conf_line) :
  forall k, insert_here (parse_line all l) = Some k ->
            (k < List.length all)%nat ->
            exists x, nth_error all k = Some x /\
                      In (devnm x) (members (ent (parse_line all l))).
Proof.
  unfold parse_line.
  apply (words_loop_invariant
           (fun st => forall k, insert_here st = Some k ->
                                (k < List.length all)%nat ->
                                exists x, nth_error all k = Some x /\
                                          In (devnm x) (members (ent st))));
    simpl; auto.
  - intros w st H k. unfold rule_member.
    destruct (add_member_guards w (ent st)) as (_ & _ & Hm).
    assert (Hold : insert_here st = Some k -> (k < List.length all)%nat ->
                   exists x, nth_error all k = Some x /\
                             In (devnm x) (members (add_member w (ent st)))).
    { intros Hk Hlt. destruct (H k Hk Hlt) as (x & Hx & Hin).
      exists x. split; [exact Hx|]. rewrite Hm. apply in_or_app. auto. }
    destruct (strchr w "[") as [n|] eqn:Hn; [|exact Hold].
    destruct (strncmp_eq w "md" 2); [|exact Hold].
    simpl. intros Hk Hlt. injection Hk as <-.
    destruct (scan_slot_stop (insert_here st) w n all 0 Hlt)
      as [Hih | (x & Hx & Hnm)].
    + apply Hold; auto.
    + rewrite Nat.sub_0_r in Hx. exists x. split; [exact Hx|].
      rewrite Hm. unfold has_bracket, member_name. rewrite Hn. simpl.
      left. symmetry. exact Hnm.
  - intros w st H k Hk Hlt.
    destruct (status_word_guards w (ent st)) as (_ & _ & ->).
    apply (H k); auto.
  - intros k Hk. discriminate Hk.
Qed.

Lemma line_step_splits (all : list mdstat_ent) (l : conf_line) :
  Forall (fun x => array_name (devnm x)) all ->
  accepted l = true ->
  exists front back,
    all = front ++ back /\
    line_step all l = front ++ ent (parse_line [] l) :: back /\
    (forall x, In x front -> ~ member_array_of x (ent (parse_line [] l))) /\
    match back with
    | [] => True
    | y :: _ => member_array_of y (ent (parse_line [] l))
    end.
Proof.
  intros Hnames Hacc.
  assert (Hmd : Forall (fun x => strncmp_eq (devnm x) "md" 2 = true) all).
  { apply Forall_forall. intros x Hx. rewrite Forall_forall in Hnames.
    apply md_name_ok_md, array_name_md_name_ok, Hnames, Hx. }
  destruct (accepted_true l Hacc) as [Hh Hn].
  unfold line_step. rewrite Hh, Hn.
  set (t := target_slot all (insert_here (parse_line all l))).
  exists (firstn t all), (skipn t all).
  split; [symmetry; apply firstn_skipn|].
  split; [unfold link_at; rewrite parse_line_ent_alone; reflexivity|].
  rewrite <- (parse_line_ent_alone all l). split.
  - intros x Hx. apply (parse_line_ahead all l Hmd x Hx).
  - destruct (skipn t all) as [|y back] eqn:Hsk; [exact I|].
    assert (Hlen : List.length (skipn t all)
                   = (List.length all - t)%nat) by apply length_skipn.
    rewrite Hsk in Hlen. simpl in Hlen.
    assert (Hy : nth_error all t = Some y).
    { rewrite <- (firstn_skipn t all) at 1.
      rewrite nth_error_app2 by (rewrite length_firstn; lia).
      rewrite length_firstn, Hsk.
      replace (t - Nat.min t (List.length all))%nat with 0%nat by lia.
      reflexivity. }
    unfold t, target_slot in *.
    destruct (insert_here (parse_line all l)) as [k|] eqn:Hk; [|lia].
    destruct (Nat.ltb_spec k (List.length all)) as [Hlt|]; [|lia].
    destruct (parse_line_anchored all l k Hk Hlt) as (x & Hx & Hin).
    rewrite Hy in Hx. injection Hx as <-. exact Hin.
Qed.

(** One line of the file: the new record is linked in between a front
    part and a back part of the list built so far, whose records keep
    their order; no record of the front part is a member-array of the
    new record; and the back part, unless it is empty, starts with a
    member-array of the new record.  The record goes right in front of
    the earliest of its components already in the list, and at the end
    if there is none. *)
Theorem line_step_splice (all : list mdstat_ent) (l : conf_line) :
  Forall (fun x => array_name (devnm x)) all ->
  accepted l = true ->
  exists front back,
    all = front ++ back /\
    line_step all l = front ++ ent (parse_line [] l) :: back /\
    (forall x, In x front -> ~ member_array_of x (ent (parse_line [] l))) /\
    match back with
    | [] => True
    | y :: _ => member_array_of y (ent (parse_line [] l))
    end.
Proof. exact (line_step_splits all l). Qed.

Lemma line_step_splice_witness :
  accepted Scenario.S4 = true /\
  exists front back,
    snapshot false [Scenario.S1; Scenario.S2] = front ++ back /\
    line_step (snapshot false [Scenario.S1; Scenario.S2]) Scenario.S4
    = front ++ ent (parse_line [] Scenario.S4) :: back.
Proof.
  assert (Hn : Forall (fun x => array_name (devnm x))
                      (snapshot false [Scenario.S1; Scenario.S2])).
  { repeat constructor; apply md_name_ok_array_name; reflexivity. }
  split; [reflexivity|].
  destruct (line_step_splice (snapshot false [Scenario.S1; Scenario.S2])
                             Scenario.S4 Hn eq_refl)
    as (front & back & H1 & H2 & _).
  exists front, back. split; [exact H1 | exact H2].
Defined.

(* ================================================================== *)
(** ** The snapshot as a whole *)

Lemma read_lines_records (ls : list conf_line) :
  forall all, Permutation (read_lines all ls) (all ++ records_of ls).
Proof.
  unfold records_of.
  induction ls as [|l ls IH]; intros all.
  - simpl. rewrite app_nil_r. apply Permutation_refl.
  - rewrite read_lines_cons. eapply Permutation_trans; [apply IH|].
    cbn [filter]. destruct (accepted l) eqn:Hacc.
    + destruct (accepted_true l Hacc) as [Hh Hn].
      unfold line_step. rewrite Hh, Hn. unfold link_at.
      rewrite parse_line_ent_alone. cbn [map].
      set (e := ent (parse_line [] l)).
      set (t := target_slot all (insert_here (parse_line all l))).
      apply Permutation_trans with ((e :: all) ++ records_of ls).
      * apply Permutation_app_tail.
        rewrite <- (firstn_skipn t all) at 3.
        apply Permutation_sym, Permutation_middle.
      * apply Permutation_middle.
    + rewrite line_step_skip by exact Hacc. apply Permutation_refl.
Qed.

(** The records of a snapshot are those of the accepted lines of the
    file, one record for each such line and each as the line alone
    determines it; only their order depends on the other lines. *)
Theorem snapshot_records (start : bool) (ls : list conf_line) :
  Permutation (snapshot start ls) (records_of ls).
Proof.
  unfold snapshot.
  assert (H : Permutation (read_lines [] ls) (records_of ls))
    by apply (read_lines_records ls []).
  destruct start; [|exact H].
  rewrite reverse_onto_spec, app_nil_r.
  eapply Permutation_trans; [apply Permutation_sym, Permutation_rev|exact H].
Qed.

(** When every composite is listed above its components, nothing is
    spliced: the list returned with [start] clear is in the order of the
    file. *)
Theorem snapshot_in_file_order (ls : list conf_line) :
  composites_listed_first ls ->
  snapshot false ls = records_of ls.
Proof.
  unfold snapshot.
  assert (H : forall ls all,
             Forall (fun x => array_name (devnm x)) all ->
             (forall x l', In x all -> In l' ls -> accepted l' = true ->
                           ~ In (devnm x) (line_members l')) ->
             composites_listed_first ls ->
             read_lines all ls = all ++ records_of ls).
  { clear ls. unfold records_of.
    induction ls as [|l ls IH]; intros all Hn Hno Hfile.
    - simpl. symmetry. apply app_nil_r.
    - rewrite read_lines_cons. destruct Hfile as [Hl Hfile].
      cbn [filter]. destruct (accepted l) eqn:Hacc.
      + destruct (line_step_splits all l Hn Hacc)
          as (front & back & Hall & Hstep & _ & Hback).
        destruct back as [|y back].
        * rewrite app_nil_r in Hall. subst front. rewrite Hstep.
          rewrite IH; auto.
          -- rewrite <- app_assoc. reflexivity.
          -- apply Forall_app. split; [exact Hn|]. constructor; [|constructor].
             rewrite devnm_parse_line.
             apply md_name_ok_array_name.
             apply (accepted_true l Hacc).
          -- intros x l' Hx Hl' Hacc'. apply in_app_or in Hx.
             destruct Hx as [Hx | [<- | []]].
             ++ apply (Hno x l'); auto. right. exact Hl'.
             ++ rewrite devnm_parse_line.
                specialize (Hl eq_refl). rewrite Forall_forall in Hl.
                apply (Hl l'); auto.
        * exfalso. apply (Hno y l); auto.
          -- rewrite Hall. apply in_or_app. right. left. reflexivity.
          -- left. reflexivity.
      + rewrite line_step_skip by exact Hacc. apply IH; auto.
        intros x l' Hx Hl'. apply (Hno x l'); auto. right. exact Hl'. }
  intros Hfile. rewrite (H ls []); auto.
Qed.

Lemma snapshot_in_file_order_witness :
  composites_listed_first [Scenario.S4; Scenario.S1; Scenario.S2] /\
  map devnm (snapshot false [Scenario.S4; Scenario.S1; Scenario.S2])
  = ["md3"; "md0"; "md1"].
Proof.
  assert (Hfile : composites_listed_first
                    [Scenario.S4; Scenario.S1; Scenario.S2]).
  { cbn [composites_listed_first].
    repeat split; intros _; repeat constructor; intros _;
      vm_compute; intuition discriminate. }
  split; [exact Hfile|].
  rewrite (snapshot_in_file_order _ Hfile). reflexivity.
Defined.

Lemma header_not_array_name (nm : string) :
  is_header nm = true -> md_name_ok nm = false.
Proof.
  unfold is_header, strcmp_eq. intros H.
  apply orb_true_iff in H. destruct H as [H | H];
    [apply orb_true_iff in H; destruct H as [H | H]|];
    apply String.eqb_eq in H; subst nm; reflexivity.
Qed.

Lemma accepted_array_name (l : conf_line) :
  accepted l = true <-> array_name (fst l).
Proof.
  unfold accepted. split.
  - intros H. apply andb_true_iff in H. destruct H as [_ H].
    apply md_name_ok_array_name. exact H.
  - intros H. apply array_name_md_name_ok in H. rewrite H.
    destruct (is_header (fst l)) eqn:Hh; [|reflexivity].
    apply header_not_array_name in Hh. congruence.
Qed.

Lemma find_devnm_In (l : list mdstat_ent) (name : string) :
  is_null (find_devnm l name) = false <->
  exists r, In r l /\ devnm r = name.
Proof.
  induction l as [|me l IH]; simpl.
  - split; [discriminate | intros (r & [] & _)].
  - unfold strcmp_eq. destruct (String.eqb_spec (devnm me) name) as [He|Hne].
    + simpl. split; auto. intros _. exists me. auto.
    + destruct (find_devnm l name) as [k|] eqn:Hf; simpl in *.
      * split; auto. intros _. destruct (proj1 IH eq_refl) as (r & Hr & Hn).
        exists r. auto.
      * split; [discriminate|]. intros (r & [<- | Hr] & Hn); [congruence|].
        apply IH. exists r. auto.
Qed.

(** [mddev_busy]: when the file opens, the answer is yes exactly when
    the name has the shape of an array name and is the first word of a
    line of the file; when the file does not open, the answer is no. *)
Theorem mddev_busy_spec (fd : Z) (env : io_env) (name : string) :
  (fopen_ok env = true -> 0 <= fcntl_ret env ->
   (mddev_busy fd env name = true <->
    array_name name /\ exists l, In l (content env) /\ fst l = name)) /\
  (fopen_ok env = false -> mddev_busy fd env name = false).
Proof.
  unfold mddev_busy, mdstat_read. cbn [andb]. split.
  - intros Ho Hf. rewrite Ho.
    destruct (Z.ltb_spec (fcntl_ret env) 0); [lia|]. cbn [fst].
    rewrite negb_true_iff, find_devnm_In. split.
    + intros (r & Hr & Hn).
      apply (Permutation_in _ (read_lines_records (content env) [])) in Hr.
      simpl in Hr. unfold records_of in Hr. apply in_map_iff in Hr.
      destruct Hr as (l & <- & Hl). apply filter_In in Hl.
      destruct Hl as [Hl Hacc]. rewrite devnm_parse_line in Hn.
      split; [rewrite <- Hn; apply accepted_array_name, Hacc|].
      exists l. auto.
    + intros (Hname & l & Hl & Hn).
      exists (ent (parse_line [] l)). split; [|rewrite devnm_parse_line; auto].
      apply (Permutation_in
               _ (Permutation_sym (read_lines_records (content env) []))).
      simpl. unfold records_of.
      apply (in_map (fun l => ent (parse_line [] l))).
      apply filter_In. split; auto.
      apply accepted_array_name. rewrite Hn. exact Hname.
  - intros Ho. rewrite Ho. reflexivity.
Qed.

Lemma mddev_busy_spec_witness :
  mddev_busy (-1) (ok_env [Scenario.S1; Scenario.S2]) "md1" = true /\
  mddev_busy (-1) (mk_env 0 0 true false 0 [Scenario.S1] 0 0) "md0" = false.
Proof.
  split.
  - apply (proj1 (mddev_busy_spec (-1) (ok_env [Scenario.S1; Scenario.S2])
                                  "md1")).
    + reflexivity.
    + simpl. lia.
    + split; [apply md_name_ok_array_name; reflexivity|].
      exists Scenario.S2. split; [right; left; reflexivity | reflexivity].
  - apply (proj2 (mddev_busy_spec
                    (-1) (mk_env 0 0 true false 0 [Scenario.S1] 0 0) "md0")).
    reflexivity.
Defined.

(* ================================================================== *)
(** ** External metadata, the descriptor cache and mdstat_wait_fd *)

Lemma prefix_split (p v : string) :
  String.prefix p v = true ->
  v = (p ++ strdrop (String.length p) v)%string.
Proof.
  revert v. induction p as [|c p IH]; intros v H; [reflexivity|].
  destruct v as [|d v]; [discriminate H|]. simpl in H.
  destruct (ascii_dec c d) as [<- | Hne]; [|discriminate H].
  simpl. f_equal. apply IH. exact H.
Qed.

Lemma prefix_app (p t : string) : String.prefix p (p ++ t) = true.
Proof.
  induction p as [|c p IH]; simpl; [destruct t; reflexivity|].
  destruct (ascii_dec c c); [exact IH | congruence].
Qed.

Lemma strdrop_app (p t : string) : strdrop (String.length p) (p ++ t) = t.
Proof. induction p as [|c p IH]; simpl; auto. Qed.

(** A record is external exactly when its metadata version is the text
    [external:] followed by a tail, and [version_tail], the pointer nine
    characters in, is then that tail. *)
Theorem external_spec (e : mdstat_ent) :
  (is_mdstat_ent_external e = true ->
   metadata_version e = Some ("external:" ++ version_tail e)%string) /\
  (forall tail,
      metadata_version e = Some ("external:" ++ tail)%string ->
      is_mdstat_ent_external e = true /\ version_tail e = tail).
Proof.
  unfold is_mdstat_ent_external, version_tail, strncmp_eq.
  change (strtake 9 "external:") with "external:".
  change 9%nat with (String.length "external:").
  split.
  - destruct (metadata_version e) as [v|]; [|discriminate].
    rewrite strtake_prefix. intros H. f_equal. apply prefix_split. exact H.
  - intros tail ->. rewrite strtake_prefix, prefix_app, strdrop_app. auto.
Qed.

Lemma external_spec_witness :
  is_mdstat_ent_external (ent (parse_line [] Scenario.S6)) = true /\
  version_tail (ent (parse_line [] Scenario.S6)) = "/container0/vol1".
Proof.
  exact (proj2 (external_spec (ent (parse_line [] Scenario.S6)))
               "/container0/vol1" eq_refl).
Defined.

(** The cached descriptor changes only in a read with [hold] set that
    finds the cache empty and opens the file: it then becomes what dup
    returned, also when the read goes on to fail on that descriptor and
    returns NULL.  A read with [hold] clear never touches the cache. *)
Theorem descriptor_cache (hold start : bool) (fd : Z) (env : io_env) :
  (snd (mdstat_read hold start fd env) <> fd ->
   hold = true /\ fd = -1 /\ fopen_ok env = true /\ 0 <= fcntl_ret env /\
   snd (mdstat_read hold start fd env) = dup_fileno_ret env) /\
  (hold = true -> fd = -1 -> fopen_ok env = true -> 0 <= fcntl_ret env ->
   snd (mdstat_read hold start fd env) = dup_fileno_ret env /\
   (fcntl_hold_ret env < 0 -> fst (mdstat_read hold start fd env) = [])).
Proof.
  unfold mdstat_read. split.
  - destruct hold; cbn [andb].
    + destruct (Z.eqb_spec fd (-1)) as [-> | Hne]; cbn [negb].
      * destruct (fopen_ok env); [|intros H; elim H; reflexivity].
        destruct (Z.ltb_spec (fcntl_ret env) 0);
          [intros H'; elim H'; reflexivity|].
        destruct (fcntl_hold_ret env <? 0); simpl; intros _;
          repeat split; auto.
      * intros H. exfalso. apply H.
        break_match; reflexivity.
    + intros H. exfalso. apply H. break_match; reflexivity.
  - intros -> -> Ho Hf. cbn [andb Z.eqb negb]. rewrite Ho.
    destruct (Z.ltb_spec (fcntl_ret env) 0); [lia|].
    destruct (Z.ltb_spec (fcntl_hold_ret env) 0); simpl; split; auto; lia.
Qed.

Lemma descriptor_cache_witness :
  snd (mdstat_read true false (-1) (ok_env [Scenario.S1])) = 5 /\
  mdstat_read true true (-1) (mk_env 0 0 true true 0 [Scenario.S1] 6 (-1))
  = ([], 6).
Proof.
  split.
  - assert (H : snd (mdstat_read true false (-1) (ok_env [Scenario.S1]))
                <> -1) by (vm_compute; discriminate).
    exact (proj2 (proj2 (proj2 (proj2
             (proj1 (descriptor_cache true false (-1)
                                      (ok_env [Scenario.S1])) H))))).
  - destruct (proj2 (descriptor_cache
                       true true (-1)
                       (mk_env 0 0 true true 0 [Scenario.S1] 6 (-1)))
                    eq_refl eq_refl eq_refl) as [H1 H2].
    + simpl. lia.
    + apply injective_projections; [apply H2; simpl; lia | exact H1].
Defined.

(** [mdstat_wait_fd] makes no call of pselect only when [fd] is given
    and fstat fails on it.  Otherwise every descriptor it hands to
    pselect is non-negative and below [nfds]; the cached descriptor, if
    there is one, is in the exceptional set; and [fd], if given, is in
    the exceptional set when it is a regular file and in the read set
    when it is not. *)
Theorem mdstat_wait_fd_spec (mdstat_fd fd : Z) (st : fstat_result) :
  match mdstat_wait_fd mdstat_fd fd st with
  | None => 0 <= fd /\ st = FstatFailed
  | Some c =>
      (forall d, In d (ps_readfds c) \/ In d (ps_exceptfds c) ->
                 0 <= d < ps_nfds c) /\
      (0 <= mdstat_fd -> In mdstat_fd (ps_exceptfds c)) /\
      (0 <= fd -> st = FstatRegular ->
       In fd (ps_exceptfds c) /\ ps_readfds c = []) /\
      (0 <= fd -> st = FstatOther -> ps_readfds c = [fd]) /\
      (fd < 0 -> ps_readfds c = [] /\ ~ In fd (ps_exceptfds c))
  end.
Proof.
  unfold mdstat_wait_fd.
  destruct (Z.leb_spec 0 fd) as [Hfd | Hfd];
    [destruct st; [split; auto | |]|];
    destruct (Z.leb_spec 0 mdstat_fd) as [Hm | Hm];
    destruct (Z.ltb_spec 0 fd) as [Hp | Hp];
    cbn [ps_readfds ps_exceptfds ps_nfds];
    repeat match goal with
           | |- context [if ?a <? ?b then _ else _] =>
               destruct (Z.ltb_spec a b)
           end;
    cbn [ps_readfds ps_exceptfds ps_nfds];
    repeat split; try discriminate; try lia; simpl; auto;
      try match goal with
          | Hd : In _ _ \/ In _ _ |- _ => simpl in Hd
          end;
      intuition lia.
Qed.

(* ================================================================== *)
(** ** The sentinels of the progress field *)

Lemma string_length_app (k s : string) :
  String.length (k ++ s) = (String.length k + String.length s)%nat.
Proof. induction k as [|c k IH]; simpl; auto. Qed.

Lemma strdrop_app_plus (k s : string) (j : nat) :
  strdrop (String.length k + j) (k ++ s) = strdrop j s.
Proof. induction k as [|c k IH]; simpl; auto. Qed.

Lemma strdrop_app_last (k s : string) :
  forall c, exists x,
    strdrop (String.length k) (String c k ++ s) = String x s.
Proof.
  induction k as [|d k IH]; intros c; simpl.
  - exists c. reflexivity.
  - apply (IH d).
Qed.

Lemma char_at_app (k s : string) (i : nat) :
  char_at (k ++ s) (String.length k + i) = char_at s i.
Proof. unfold char_at. induction k as [|c k IH]; simpl; auto. Qed.

Lemma ends_with_app (k s : string) : ends_with (k ++ s) s = true.
Proof.
  unfold ends_with, strcmp_eq. rewrite string_length_app.
  replace (String.length k + String.length s - String.length s)%nat
    with (String.length k + 0)%nat by lia.
  rewrite strdrop_app_plus. apply String.eqb_refl.
Qed.

(** The percentage a kind word leaves: the last of the three suffix
    tests that succeeds decides. *)
Lemma kind_word_percent (w : string) (e : mdstat_ent) :
  percent (kind_word w e)
  = if (7 <? String.length w)%nat && ends_with w "=REMOTE"
    then RESYNC_REMOTE
    else if (8 <? String.length w)%nat && ends_with w "=PENDING"
         then RESYNC_PENDING
         else if (8 <? String.length w)%nat && ends_with w "=DELAYED"
              then RESYNC_DELAYED
              else percent e.
Proof. unfold kind_word. break_match; reflexivity. Qed.

(** A word that starts with [r] or [c] and is not of the form
    [re...%] is a kind word when no progress is stored yet. *)
Lemma status_word_kind (c : ascii) (k s : string) (e : mdstat_ent) :
  (c = "r" \/ c = "c")%char ->
  percent e = RESYNC_NONE ->
  Ascii.eqb (char_at s (String.length s - 1)) "%" = false ->
  s <> EmptyString ->
  status_word (String c k ++ s) e = kind_word (String c k ++ s) e.
Proof.
  intros Hc Hp Hlast Hs. unfold status_word.
  change (char_at (String c k ++ s) 0) with c.
  assert (Hb : Ascii.eqb c "[" = false) by (destruct Hc; subst c; reflexivity).
  rewrite Hb, Hp. cbn [andb Z.eqb].
  assert (Hl : char_at (String c k ++ s)
                       (String.length (String c k ++ s) - 1)
               = char_at s (String.length s - 1)).
  { rewrite string_length_app.
    destruct s as [|a s]; [congruence|].
    change (String.length (String a s)) with (S (String.length s)).
    replace (String.length (String c k) + S (String.length s) - 1)%nat
      with (String.length (String c k) + String.length s)%nat by lia.
    rewrite char_at_app. f_equal. simpl. lia. }
  rewrite Hl, Hlast, andb_false_r.
  assert (Hrc : Ascii.eqb c "r" || Ascii.eqb c "c" = true)
    by (destruct Hc; subst c; reflexivity).
  rewrite Hrc.
  change (RESYNC_NONE =? RESYNC_NONE) with true.
  rewrite ?andb_false_r. cbn [andb]. reflexivity.
Qed.

(** While no progress is stored, a word that starts with [r] or [c] and
    ends with [=DELAYED], [=PENDING] or [=REMOTE] stores the sentinel of
    that name in [percent]. *)
Theorem sentinel_words (c : ascii) (k : string) (e : mdstat_ent) :
  (c = "r" \/ c = "c")%char ->
  percent e = RESYNC_NONE ->
  percent (status_word (String c k ++ "=DELAYED") e) = RESYNC_DELAYED /\
  percent (status_word (String c k ++ "=PENDING") e) = RESYNC_PENDING /\
  percent (status_word (String c k ++ "=REMOTE") e) = RESYNC_REMOTE.
Proof.
  intros Hc Hp.
  rewrite !(status_word_kind c k _ e Hc Hp) by (reflexivity || discriminate).
  rewrite !kind_word_percent, !string_length_app.
  assert (H8 : forall s, String.length s = 8%nat ->
            (8 <? String.length (String c k) + String.length s)%nat = true).
  { intros s ->. apply Nat.ltb_lt. simpl. lia. }
  assert (H7 : forall s, String.length s = 8%nat ->
            (7 <? String.length (String c k) + String.length s)%nat = true).
  { intros s ->. apply Nat.ltb_lt. simpl. lia. }
  assert (Hd : forall s s', String.length s = 8%nat ->
            String.length s' = 8%nat ->
            ends_with (String c k ++ s) s' = String.eqb s s').
  { intros s s' H1 H2. unfold ends_with, strcmp_eq.
    rewrite string_length_app, H1, H2.
    replace (String.length (String c k) + 8 - 8)%nat
      with (String.length (String c k) + 0)%nat by lia.
    rewrite strdrop_app_plus. reflexivity. }
  assert (Hr : forall s, String.length s = 8%nat ->
            ends_with (String c k ++ s) "=REMOTE"
            = String.eqb (strdrop 1 s) "=REMOTE").
  { intros s H1. unfold ends_with, strcmp_eq.
    rewrite string_length_app, H1.
    replace (String.length (String c k) + 8 - String.length "=REMOTE")%nat
      with (String.length (String c k) + 1)%nat by (simpl; lia).
    rewrite strdrop_app_plus. reflexivity. }
  repeat split.
  - rewrite H8, (Hr "=DELAYED"), !Hd by reflexivity.
    change (strdrop 1 "=DELAYED" =? "=REMOTE")%string with false.
    rewrite andb_false_r. reflexivity.
  - rewrite H8, (Hr "=PENDING"), !Hd by reflexivity.
    change (strdrop 1 "=PENDING" =? "=REMOTE")%string with false.
    rewrite andb_false_r. reflexivity.
  - rewrite ends_with_app, andb_true_r.
    replace (7 <? String.length (String c k) + String.length "=REMOTE")%nat
      with true by (symmetry; apply Nat.ltb_lt; simpl; lia).
    reflexivity.
Qed.

Lemma sentinel_words_witness :
  percent (ent (parse_line [] Scenario.S5)) = RESYNC_DELAYED /\
  percent (status_word "check=PENDING" (new_ent "md0")) = RESYNC_PENDING /\
  percent (status_word "resync=REMOTE" (new_ent "md0")) = RESYNC_REMOTE.
Proof.
  split; [reflexivity|].
  split.
  - exact (proj1 (proj2 (sentinel_words "c" "heck" (new_ent "md0")
                                        (or_intror eq_refl) eq_refl))).
  - exact (proj2 (proj2 (sentinel_words "r" "esync" (new_ent "md0")
                                        (or_introl eq_refl) eq_refl))).
Defined.

(* ================================================================== *)
(** ** The order of a snapshot *)

(** The records of the list the line loop builds come from the accepted
    lines read. *)
Lemma read_lines_origin (ls : list conf_line) (y : mdstat_ent) :
  In y (read_lines [] ls) ->
  exists l', In l' ls /\ accepted l' = true /\
             devnm y = fst l' /\ members y = line_members l'.
Proof.
  intros Hy.
  apply (Permutation_in _ (read_lines_records ls [])) in Hy.
  simpl in Hy. unfold records_of in Hy. apply in_map_iff in Hy.
  destruct Hy as (l' & <- & Hl'). apply filter_In in Hl'.
  destruct Hl' as [Hin Hacc]. exists l'. repeat split; auto.
  apply devnm_parse_line.
Qed.

(** The line loop keeps the composites in front of their components as
    long as no line comes after both a line that names it and a line it
    names. *)
Lemma read_lines_composites_first (ls : list conf_line) :
  no_line_in_between ls -> composites_first_rec (read_lines [] ls).
Proof.
  induction ls as [|l pre IH] using rev_ind; intros Hfile; [exact I|].
  rewrite read_lines_app. change (read_lines (read_lines [] pre) [l])
    with (line_step (read_lines [] pre) l).
  assert (Hpre : no_line_in_between pre).
  { intros a x b Heq. apply (Hfile a x (b ++ [l])).
    rewrite Heq, <- app_assoc. reflexivity. }
  specialize (IH Hpre).
  destruct (accepted l) eqn:Hacc;
    [|rewrite line_step_skip by exact Hacc; exact IH].
  assert (Hnames : Forall (fun x => array_name (devnm x))
                          (read_lines [] pre)).
  { apply Forall_forall. intros x Hx.
    destruct (read_lines_origin pre x Hx) as (l' & _ & Hacc' & -> & _).
    apply accepted_array_name. exact Hacc'. }
  destruct (line_step_splits (read_lines [] pre) l Hnames Hacc)
    as (front & back & Hall & -> & Hfront & Hback).
  rewrite Hall in IH. apply composites_first_rec_app in IH.
  destruct IH as (Hc1 & Hc2 & Hcross).
  apply composites_first_rec_app. split; [exact Hc1|]. split.
  - simpl. split; [|exact Hc2].
    destruct back as [|y back]; [constructor|].
    assert (Hn2 : names_above pre l).
    { destruct (read_lines_origin pre y) as (l' & Hl' & Hacc' & Hd & _).
      - rewrite Hall. apply in_or_app. right. left. reflexivity.
      - exists l'. repeat split; auto. rewrite <- Hd.
        rewrite <- (parse_line_members []). exact Hback. }
    apply Forall_forall. intros z Hz Hmem.
    apply (Hfile pre l [] eq_refl Hacc). split; [|exact Hn2].
    destruct (read_lines_origin pre z) as (l' & Hl' & Hacc' & _ & Hm).
    + rewrite Hall. apply in_or_app. right. exact Hz.
    + exists l'. repeat split; auto. rewrite <- Hm.
      unfold member_array_of in Hmem.
      rewrite devnm_parse_line in Hmem.
      exact Hmem.
  - intros x z Hx [<- | Hz]; [apply Hfront; exact Hx | apply Hcross; auto].
Qed.

(** C1, as the code has it.  When no accepted line of the file comes
    after both a line that names its array as a member and the line of
    an array it names as a member, the list returned with [start] clear
    has every composite array in front of its components (no record is a
    member-array of a later one), and the list returned with [start] set
    has every component in front of its composites (no record is a
    member-array of an earlier one). *)
Theorem snapshot_order (hold : bool) (fd : Z) (env : io_env) :
  no_line_in_between (content env) ->
  composites_first (fst (mdstat_read hold false fd env)) /\
  components_first (fst (mdstat_read hold true fd env)).
Proof.
  intros Hfile.
  assert (Hall : composites_first (read_lines [] (content env))).
  { apply composites_first_rec_iff, read_lines_composites_first, Hfile. }
  assert (Hnil : composites_first []).
  { intros [|i] j ri rj _ Hi; discriminate Hi. }
  assert (Hclear : composites_first (fst (mdstat_read hold false fd env))).
  { unfold mdstat_read.
    repeat match goal with
           | |- context [if ?b then _ else _] => destruct b; simpl; auto
           | |- context [match ?x with Some _ => _ | None => _ end] =>
               destruct x; simpl; auto
           end. }
  split; [exact Hclear|].
  rewrite mdstat_read_rev. apply composites_first_rev. exact Hclear.
Qed.

Lemma snapshot_order_witness :
  no_line_in_between [Scenario.S1; Scenario.S4; Scenario.S2] /\
  composites_first
    (fst (mdstat_read false false (-1)
            (ok_env [Scenario.S1; Scenario.S4; Scenario.S2]))) /\
  components_first
    (fst (mdstat_read false true (-1)
            (ok_env [Scenario.S1; Scenario.S4; Scenario.S2]))).
Proof.
  assert (Hfile : no_line_in_between
                    [Scenario.S1; Scenario.S4; Scenario.S2]).
  { intros pre l post Heq _ [(l1 & Hl1 & _ & Hm1) (l2 & Hl2 & _ & Hm2)].
    destruct pre as [|a [|b [|c pre]]]; simpl in Heq.
    - destruct Hl1.
    - injection Heq as <- <- _.
      destruct Hl1 as [<- | []]. vm_compute in Hm1.
      intuition discriminate.
    - injection Heq as <- <- <- _.
      destruct Hl2 as [<- | [<- | []]]; vm_compute in Hm2;
        intuition discriminate.
    - injection Heq as _ _ _ Heq. destruct pre; discriminate Heq. }
  split; [exact Hfile|].
  exact (snapshot_order false (-1)
           (ok_env [Scenario.S1; Scenario.S4; Scenario.S2]) Hfile).
Defined.
